(** * Remote syscall dispatch (angr/engines/remote_syscall.py)

    A shallow embedding of [SimEngineRemoteSyscall]: the per-ABI bypass
    tables, the ABI resolver [_syscall_abi] and the dispatcher
    [process_successors], followed by the properties of the dispatch
    decision.

    Python objects that the method mutates ([successors], [self.state]) live
    in a [World] that is threaded through a small state-and-exit monad; the
    calls that leave the engine (the instrumentation hook and the Bureau) are
    recorded in the world's trace in the order in which they happen. Each of
    them, and the lookup of the return address, either returns or raises; an
    exception ends the method where it is raised, with what was written
    before it left in place. *)

From Stdlib Require Import ZArith String Ascii List Bool Lia.
From stdpp Require Import base option gmap strings list.

Import ListNotations.
Local Open Scope string_scope.
Local Open Scope Z_scope.

(** ** Bypass tables (module-level constants) *)

Definition BASE_SYSCALL_BYPASS_LIST : gset string :=
  {[ "mmap"; "munmap"; "brk"; "write"; "read"; "exit"; "exit_group" ]}.

Definition SYSCALL_BYPASS_LISTS : gmap string (gset string) :=
  <["amd64" := BASE_SYSCALL_BYPASS_LIST]> (
  <["i386" := BASE_SYSCALL_BYPASS_LIST]> (
  <["mips-n32" := BASE_SYSCALL_BYPASS_LIST ∪ {[ "set_thread_area" ]}]> (
  <["mips-o32" := BASE_SYSCALL_BYPASS_LIST ∪ {[ "set_thread_area" ]}]> (
  <["mips-n64" := BASE_SYSCALL_BYPASS_LIST ∪ {[ "set_thread_area" ]}]> ∅)))).

(** [SYSCALL_BYPASS_LISTS.get(syscall_abi, BASE_SYSCALL_BYPASS_LIST)] *)
Definition syscall_blacklist (syscall_abi : string) : gset string :=
  default BASE_SYSCALL_BYPASS_LIST (SYSCALL_BYPASS_LISTS !! syscall_abi).

(** ** Python values *)

(** Truthiness of a Python string-or-None: [None] and [''] are falsy. *)
Definition truthy_str (s : option string) : bool :=
  match s with
  | Some EmptyString => false
  | Some _ => true
  | None => false
  end.

(** [str.lower] on ASCII letters. *)
Definition lower_ascii (c : ascii) : ascii :=
  let n := nat_of_ascii c in
  if (Nat.leb 65 n && Nat.leb n 90)%bool then ascii_of_nat (n + 32) else c.

Fixpoint lower (s : string) : string :=
  match s with
  | EmptyString => EmptyString
  | String c r => String (lower_ascii c) (lower r)
  end.

(** ['Ijk_Sys...'.startswith(p)] *)
Definition startswith (s p : string) : bool := String.prefix p s.

(** A [%]-formatted message: the format string and its arguments. *)
Inductive FmtArg :=
| FmtInt (n : Z)
| FmtStr (s : string).

Inductive Message :=
| Literal (s : string)
| Format (fmt : string) (fmt_args : list FmtArg).

(** The exceptions the method can leave with. [CollaboratorError] stands for
    whatever an instrumentation hook, the Bureau or the calling convention
    raises while the method calls it. *)
Inductive Exception :=
| AngrUnsupportedSyscallError (msg : Message)
| AngrSyscallError (msg : Message)
| NotImplementedError (msg : Message)
| SimSolverError
| CollaboratorError (what : string).

(** ** Collaborators: claripy, the solver, the state *)

(** A claripy bit-vector AST, as far as the engine looks into it. *)
Inductive Expr :=
| BVV (value : Z)
| BVS (name : string).

(** A claripy boolean AST; [claripy_true] is [claripy.true]. *)
Inductive BoolExpr :=
| BoolV (b : bool)
| BoolS (name : string).

Definition claripy_true : BoolExpr := BoolV true.

(** [state.solver]: [eval_one e] is [None] where the Python call raises
    [SimSolverError]. *)
Record SimSolver := {
  eval_one : Expr -> option Z;
  symbolic : Expr -> bool;
  satisfiable : bool
}.

#[warnings="-register-all"]
Inductive SimStateHistory := mkHistory {
  parent : option SimStateHistory;
  jumpkind : option string;
  recent_block_count : Z
}.

Record SimStateScratch := {
  sim_procedure : option string
}.

Record SimArch := {
  arch_name : string
}.

Inductive BPWhen := BP_BEFORE | BP_AFTER.

(** [inspect event_type when syscall_name] is what the breakpoints of the
    state do when [state._inspect] reaches them: [Some e] where they raise
    [e], [None] where they return. *)
Record SimState := {
  history : option SimStateHistory;
  solver : SimSolver;
  options : gset string;
  scratch : SimStateScratch;
  arch : SimArch;
  inspect : string -> BPWhen -> string -> option Exception
}.

(** [angr.sim_options.BYPASS_UNSUPPORTED_SYSCALL] *)
Definition BYPASS_UNSUPPORTED_SYSCALL : string := "BYPASS_UNSUPPORTED_SYSCALL".

(** The calling convention returned by [simos.syscall_cc(state)]; reading
    the return address gives the address or raises. *)
Record SimCC := {
  syscall_num : SimState -> Expr;
  arg : SimState -> nat -> Expr;
  return_addr_get_value : SimState -> Exception + Expr
}.

(** [project.simos]; [syscall_abis] is a dict [{abi: (table, min, max)}],
    kept in insertion order because the resolver iterates over it. *)
Record SimUserland := {
  syscall_cc : SimState -> SimCC;
  syscall_abi : SimState -> option string;
  syscall_abis : list (string * (string * Z * Z))
}.

Record SimTypeFunction := {
  args : list string
}.

(** [angr.SIM_LIBRARIES['linux']]; [syscall_number_mapping] is a
    [defaultdict(dict)], so a missing ABI reads as the empty table. *)
Record SimSyscallLibrary := {
  syscall_number_mapping : gmap string (gmap Z string);
  get_prototype : string -> string -> SimArch -> option SimTypeFunction
}.

(** [project.bureau]: a call answers with the successor state or raises. *)
Record Bureau := {
  invoke_syscall : SimState -> Z -> list Z -> SimCC -> Exception + SimState
}.

Record Project := {
  simos : SimUserland;
  bureau : Bureau
}.

(** What the method reads through [self] and the [angr] module. *)
Record Engine := {
  project : Project;
  SIM_LIBRARIES_linux : SimSyscallLibrary
}.

(** ** The successors object *)

Inductive ArtifactValue :=
| ArtBool (b : bool)
| ArtStr (s : string).

Record Successor := {
  succ_state : SimState;
  succ_target : Expr;
  succ_guard : BoolExpr;
  succ_jumpkind : string
}.

Record SimSuccessors := {
  sort : option string;
  artifacts : gmap string ArtifactValue;
  description : option string;
  processed : bool;
  all_successors : list Successor
}.

(** Modelled from the spec: [SimSuccessors.add_successor] is not part of the
    file; the successor sink receives the successor and keeps it, after those
    it already holds. *)
Definition add_successor (s : SimSuccessors) (st : SimState) (target : Expr)
    (guard : BoolExpr) (jk : string) : SimSuccessors :=
  {| sort := sort s; artifacts := artifacts s; description := description s;
     processed := processed s;
     all_successors := all_successors s ++
       [ {| succ_state := st; succ_target := target; succ_guard := guard;
            succ_jumpkind := jk |} ] |}.

(** ** The world of one dispatch attempt *)

(** Calls that leave the engine, each with the state it was handed. *)
Inductive Event :=
| Inspect (event_type : string) (when : BPWhen) (syscall_name : string)
    (st : SimState)
| InvokeSyscall (st : SimState) (num : Z) (call_args : list Z) (cc : SimCC).

Record World := {
  w_successors : SimSuccessors;
  w_state : SimState;
  w_trace : list Event
}.

(** How a piece of the method ends: it goes on with a value, it returns what
    the next mixin in the hierarchy returns, or it raises. *)
Inductive Result (A : Type) :=
| Normal (a : A)
| Super
| Raise (e : Exception).

Arguments Normal {A} a.
Arguments Super {A}.
Arguments Raise {A} e.

Definition M (A : Type) : Type := World -> Result A * World.

Definition ret {A} (a : A) : M A := fun w => (Normal a, w).

Definition bind {A B} (m : M A) (k : A -> M B) : M B :=
  fun w =>
    match m w with
    | (Normal a, w') => k a w'
    | (Super, w') => (Super, w')
    | (Raise e, w') => (Raise e, w')
    end.

Notation "'let*' x ':=' m 'in' k" := (bind m (fun x => k))
  (at level 10, x name, m at level 100, k at level 200).
Notation "m ';;' k" := (bind m (fun _ => k))
  (at level 100, k at level 200, right associativity).

(** [return super().process_successors(successors, **kwargs)] *)
Definition super_process_successors {A} : M A := fun w => (Super, w).

Definition raise {A} (e : Exception) : M A := fun w => (Raise e, w).

Definition lift {A} (r : Result A) : M A := fun w => (r, w).

(** A call into a collaborator: its answer, or the exception it raises. *)
Definition call {A} (r : Exception + A) : M A :=
  fun w => match r with
           | inl e => (Raise e, w)
           | inr a => (Normal a, w)
           end.

Definition get_state : M SimState := fun w => (Normal (w_state w), w).

Definition modify_state (f : SimState -> SimState) : M unit :=
  fun w => (Normal tt,
            {| w_successors := w_successors w; w_state := f (w_state w);
               w_trace := w_trace w |}).

Definition modify_successors (f : SimSuccessors -> SimSuccessors) : M unit :=
  fun w => (Normal tt,
            {| w_successors := f (w_successors w); w_state := w_state w;
               w_trace := w_trace w |}).

Definition emit (ev : Event) : M unit :=
  fun w => (Normal tt,
            {| w_successors := w_successors w; w_state := w_state w;
               w_trace := w_trace w ++ [ev] |}).

(** Field assignments on [successors] and [state]. *)
Definition set_sort (v : string) (s : SimSuccessors) : SimSuccessors :=
  {| sort := Some v; artifacts := artifacts s; description := description s;
     processed := processed s; all_successors := all_successors s |}.

Definition set_artifact (k : string) (v : ArtifactValue) (s : SimSuccessors)
    : SimSuccessors :=
  {| sort := sort s; artifacts := <[k := v]> (artifacts s);
     description := description s; processed := processed s;
     all_successors := all_successors s |}.

Definition set_description (v : string) (s : SimSuccessors) : SimSuccessors :=
  {| sort := sort s; artifacts := artifacts s; description := Some v;
     processed := processed s; all_successors := all_successors s |}.

(** [successors.description += v]; the attribute holds a string by then. *)
Definition append_description (v : string) (s : SimSuccessors) : SimSuccessors :=
  {| sort := sort s; artifacts := artifacts s;
     description := option_map (fun d => d ++ v)%string (description s);
     processed := processed s; all_successors := all_successors s |}.

Definition set_processed (v : bool) (s : SimSuccessors) : SimSuccessors :=
  {| sort := sort s; artifacts := artifacts s; description := description s;
     processed := v; all_successors := all_successors s |}.

Definition set_sim_procedure (v : option string) (st : SimState) : SimState :=
  {| history := history st; solver := solver st; options := options st;
     scratch := {| sim_procedure := v |}; arch := arch st;
     inspect := inspect st |}.

Definition set_recent_block_count (v : Z) (st : SimState) : SimState :=
  {| history := option_map (fun h => mkHistory (parent h) (jumpkind h) v)
                           (history st);
     solver := solver st; options := options st; scratch := scratch st;
     arch := arch st; inspect := inspect st |}.

(** [state._inspect(event_type, when, syscall_name=...)] *)
Definition _inspect (event_type : string) (when : BPWhen) (syscall_name : string)
    : M unit :=
  let* state := get_state in
  emit (Inspect event_type when syscall_name state) ;;
  match inspect state event_type when syscall_name with
  | Some e => raise e
  | None => ret tt
  end.

(** ** [_syscall_abi] *)

(** The [for] loop over [syscall_abis.items()]: the first ABI whose range
    holds [num]. *)
Fixpoint scan_abis (abis : list (string * (string * Z * Z))) (num : Z)
    : option string :=
  match abis with
  | [] => None
  | (abi, (_, min_syscall_num, max_syscall_num)) :: rest =>
      if (min_syscall_num <=? num) && (num <? max_syscall_num)
      then Some abi
      else scan_abis rest num
  end.

Definition _syscall_abi (self : Engine) (state : SimState) (num : Z)
    : Result string :=
  match syscall_abi (simos (project self)) state with
  | Some syscall_abi => Normal syscall_abi
  | None =>
      match syscall_abis (simos (project self)) with
      | [(abi, _)] => Normal abi
      | abis =>
          match scan_abis abis num with
          | Some abi => Normal abi
          | None =>
              Raise (AngrSyscallError
                (Format "Cannot determine the ABI for syscall %d on architecture %s."
                        [FmtInt num; FmtStr (arch_name (arch state))]))
          end
      end
  end.

(** ** [process_successors] *)

(** Lines 104-112: the argument loop. [arg_idx] counts the positions done,
    [acc] is the Python list [args]. *)
Fixpoint extract_args (state : SimState) (cc : SimCC) (arg_idx : nat)
    (arg_types : list string) (acc : list Z) : Result (list Z) :=
  match arg_types with
  | [] => Normal acc
  | _ :: rest =>
      let arg := arg cc state arg_idx in
      if negb (symbolic (solver state) arg) then
        match eval_one (solver state) arg with
        | Some v => extract_args state cc (S arg_idx) rest (acc ++ [v])
        | None => Raise SimSolverError
        end
      else Super
  end.

(** The guard of lines 54-57. *)
Definition not_after_syscall (state : SimState) : bool :=
  match history state with
  | None => true
  | Some h =>
      match parent h with
      | None => true
      | Some p =>
          negb (truthy_str (jumpkind p))
          || negb (startswith (default "" (jumpkind p)) "Ijk_Sys")
      end
  end.

Definition process_successors (self : Engine) : M unit :=
  let* state := get_state in
  if not_after_syscall state then super_process_successors else
  let syscall_cc := syscall_cc (simos (project self)) state in
  let syscall_num := syscall_num syscall_cc state in
  (* convert the syscall number to a concrete integer *)
  let* num :=
    match eval_one (solver state) syscall_num with
    | Some num => ret num
    | None =>
        if negb (bool_decide (BYPASS_UNSUPPORTED_SYSCALL ∈ options state)) then
          raise (AngrUnsupportedSyscallError (Literal
            "Trying to perform a syscall on an emulated system which is not currently cofigured to support syscalls. To resolve this, make sure that your SimOS is a subclass of SimUserspace, or set the BYPASS_UNSUPPORTED_SYSCALL state option."))
        else if negb (satisfiable (solver state)) then
          raise (AngrUnsupportedSyscallError
                   (Literal "The program state is not satisfiable"))
        else
          raise (AngrUnsupportedSyscallError
                   (Literal "Got a symbolic syscall number"))
    end in
  (* determine the abi *)
  let* syscall_abi := lift (_syscall_abi self state num) in
  (* extract the syscall prototype *)
  let lib := SIM_LIBRARIES_linux self in
  let syscall_name :=
    default ∅ (syscall_number_mapping lib !! syscall_abi) !! num in
  if negb (truthy_str syscall_name) then
    if negb (bool_decide (BYPASS_UNSUPPORTED_SYSCALL ∈ options state)) then
      raise (AngrUnsupportedSyscallError
        (Format "Syscall %d for architecture %s is not found in the syscall mapping"
                [FmtInt num; FmtStr (lower (arch_name (arch state)))]))
    else raise (NotImplementedError (Literal "what to do..."))
  else
  let syscall_name := default "" syscall_name in
  (* check against the blacklist *)
  if bool_decide (syscall_name ∈ syscall_blacklist syscall_abi) then
    super_process_successors
  else
  match get_prototype lib syscall_abi syscall_name (arch state) with
  | None =>
      if negb (bool_decide (BYPASS_UNSUPPORTED_SYSCALL ∈ options state)) then
        raise (AngrUnsupportedSyscallError
          (Format "Syscall %d %s for architecture %s is not found in the syscall prototypes"
                  [FmtInt num; FmtStr syscall_name;
                   FmtStr (lower (arch_name (arch state)))]))
      else raise (NotImplementedError (Literal "what to do..."))
  | Some syscall_proto =>
      (* extract syscall arguments *)
      let* call_args :=
        lift (extract_args state syscall_cc 0 (args syscall_proto) []) in
      (* create the successor *)
      modify_successors (set_sort "SimProcedure") ;;
      (* fill in artifacts *)
      modify_successors (set_artifact "is_syscall" (ArtBool true)) ;;
      modify_successors (set_artifact "name" (ArtStr syscall_name)) ;;
      modify_successors (set_artifact "no_ret" (ArtBool false)) ;;
      modify_successors (set_artifact "adds_exits" (ArtBool true)) ;;
      (* Update state.scratch *)
      modify_state (set_sim_procedure None) ;;
      modify_state (set_recent_block_count 1) ;;
      (* inspect support *)
      _inspect "syscall" BP_BEFORE syscall_name ;;
      (* talk to Bureau *)
      let* state := get_state in
      emit (InvokeSyscall state num call_args syscall_cc) ;;
      let* succ_state :=
        call (invoke_syscall (bureau (project self)) state num call_args
                             syscall_cc) in
      (* add the successor *)
      let* return_addr := call (return_addr_get_value syscall_cc state) in
      modify_successors (fun s =>
        add_successor s succ_state return_addr claripy_true "Ijk_Ret") ;;
      (* inspect - post execution *)
      _inspect "syscall" BP_AFTER syscall_name ;;
      modify_successors (set_description ("SimProcedure " ++ syscall_name)) ;;
      modify_successors (append_description " (syscall)") ;;
      modify_successors (set_processed true)
  end.

(** ** A concrete configuration

    An amd64 Linux target: the syscall table knows [read], [write], [open]
    and [close]; [open] takes three arguments. The solver evaluates a
    bit-vector value to itself and fails on a free variable. *)

Definition demo_solver : SimSolver :=
  {| eval_one := fun e => match e with BVV v => Some v | BVS _ => None end;
     symbolic := fun e => match e with BVV _ => false | BVS _ => true end;
     satisfiable := true |}.

Definition demo_state : SimState :=
  {| history :=
       Some (mkHistory (Some (mkHistory None (Some "Ijk_Sys_syscall") 7))
                       None 3);
     solver := demo_solver;
     options := ∅;
     scratch := {| sim_procedure := Some "pending" |};
     arch := {| arch_name := "AMD64" |};
     inspect := fun _ _ _ => None |}.

Definition demo_cc (num : Expr) (argv : list Expr) : SimCC :=
  {| syscall_num := fun _ => num;
     arg := fun _ i => nth i argv (BVS "unset");
     return_addr_get_value := fun _ => inr (BVV 4198400) |}.

Definition demo_lib : SimSyscallLibrary :=
  {| syscall_number_mapping :=
       {[ "amd64" := <[0 := "read"]> (<[1 := "write"]> (<[2 := "open"]>
                       (<[3 := "close"]> (<[5 := "fstat"]> ∅)))) ]};
     get_prototype := fun _ name _ =>
       if String.eqb name "open" then Some {| args := ["char*"; "int"; "int"] |}
       else if String.eqb name "close" then Some {| args := ["int"] |}
       else if String.eqb name "write"
         then Some {| args := ["int"; "char*"; "size_t"] |}
       else None |}.

(** A Bureau whose answer is recognisable: the state it was handed, with the
    block counter bumped. *)
Definition demo_bureau : Bureau :=
  {| invoke_syscall := fun st _ _ _ =>
       inr (set_recent_block_count 2 st) |}.

Definition demo_engine (num : Expr) (argv : list Expr) : Engine :=
  {| project :=
       {| simos := {| syscall_cc := fun _ => demo_cc num argv;
                      syscall_abi := fun _ => Some "amd64";
                      syscall_abis := [("amd64", ("linux", 0, 4294967296))] |};
          bureau := demo_bureau |};
     SIM_LIBRARIES_linux := demo_lib |}.

Definition empty_successors : SimSuccessors :=
  {| sort := None; artifacts := ∅; description := None; processed := false;
     all_successors := [] |}.

Definition demo_world : World :=
  {| w_successors := empty_successors; w_state := demo_state; w_trace := [] |}.

(** The same world with the given state options and satisfiability. *)
Definition demo_world_with (opts : gset string) (sat : bool) : World :=
  {| w_successors := empty_successors;
     w_state :=
       {| history := history demo_state;
          solver := {| eval_one := eval_one demo_solver;
                       symbolic := symbolic demo_solver;
                       satisfiable := sat |};
          options := opts;
          scratch := scratch demo_state;
          arch := arch demo_state;
          inspect := inspect demo_state |};
     w_trace := [] |}.

(** [write(1, 0x1000, 12)], [open(0x1000, 0, 0o644)], the same [open] with
    unconstrained flags, a syscall with an unconstrained number, and a number
    the table does not know. *)
Definition write_engine : Engine :=
  demo_engine (BVV 1) [BVV 1; BVV 4096; BVV 12].

Definition open_engine : Engine :=
  demo_engine (BVV 2) [BVV 4096; BVV 0; BVV 420].

Definition open_symbolic_engine : Engine :=
  demo_engine (BVV 2) [BVV 4096; BVS "flags"; BVV 420].

Definition symbolic_number_engine : Engine :=
  demo_engine (BVS "rax") [].

Definition unknown_number_engine : Engine :=
  demo_engine (BVV 9) [].

Definition open_prototype : SimTypeFunction :=
  {| args := ["char*"; "int"; "int"] |}.

(** An OS model with two ABIs on adjacent ranges and no direct hint. *)
Definition two_abi_engine : Engine :=
  {| project :=
       {| simos := {| syscall_cc := fun _ => demo_cc (BVV 0) [];
                      syscall_abi := fun _ => None;
                      syscall_abis := [("first", ("linux", 0, 300));
                                       ("second", ("linux", 300, 600))] |};
          bureau := demo_bureau |};
     SIM_LIBRARIES_linux := demo_lib |}.

(** The same with a single declared ABI. *)
Definition one_abi_engine : Engine :=
  {| project :=
       {| simos := {| syscall_cc := fun _ => demo_cc (BVV 0) [];
                      syscall_abi := fun _ => None;
                      syscall_abis := [("first", ("linux", 0, 300))] |};
          bureau := demo_bureau |};
     SIM_LIBRARIES_linux := demo_lib |}.

(** ** Further configurations

    A state whose previous jump was an ordinary one, a state without
    history, a syscall table with a blank name and a prototype without
    arguments, and a solver that calls nothing symbolic but cannot evaluate a
    free variable. *)

Definition boring_state : SimState :=
  {| history :=
       Some (mkHistory (Some (mkHistory None (Some "Ijk_Boring") 7)) None 3);
     solver := demo_solver;
     options := ∅;
     scratch := {| sim_procedure := Some "pending" |};
     arch := {| arch_name := "AMD64" |};
     inspect := fun _ _ _ => None |}.

Definition fresh_state : SimState :=
  {| history := None;
     solver := demo_solver;
     options := ∅;
     scratch := {| sim_procedure := None |};
     arch := {| arch_name := "AMD64" |};
     inspect := fun _ _ _ => None |}.

Definition world_of (st : SimState) : World :=
  {| w_successors := empty_successors; w_state := st; w_trace := [] |}.

Definition sparse_lib : SimSyscallLibrary :=
  {| syscall_number_mapping :=
       {[ "amd64" := <[7 := ""]> (<[39 := "getpid"]> (<[2 := "open"]> ∅)) ]};
     get_prototype := fun _ name _ =>
       if String.eqb name "getpid" then Some {| args := [] |}
       else if String.eqb name "open"
         then Some {| args := ["char*"; "int"; "int"] |}
       else None |}.

Definition sparse_engine (num : Expr) (argv : list Expr) : Engine :=
  {| project := project (demo_engine num argv);
     SIM_LIBRARIES_linux := sparse_lib |}.

(** Two declared ABIs, no hint, and the syscall number [num]. *)
Definition ranged_engine (num : Expr) : Engine :=
  {| project :=
       {| simos := {| syscall_cc := fun _ => demo_cc num [];
                      syscall_abi := fun _ => None;
                      syscall_abis := [("first", ("linux", 0, 300));
                                       ("second", ("linux", 300, 600))] |};
          bureau := demo_bureau |};
     SIM_LIBRARIES_linux := demo_lib |}.

Definition literal_solver : SimSolver :=
  {| eval_one := fun e => match e with BVV v => Some v | BVS _ => None end;
     symbolic := fun _ => false;
     satisfiable := true |}.

Definition literal_state : SimState :=
  {| history := history demo_state;
     solver := literal_solver;
     options := ∅;
     scratch := scratch demo_state;
     arch := arch demo_state;
     inspect := inspect demo_state |}.

(** A solver for a state whose constraints pin the variable [flags] to 0:
    the expression is symbolic and has exactly one value. *)
Definition pinned_solver : SimSolver :=
  {| eval_one := fun e =>
       match e with
       | BVV v => Some v
       | BVS x => if String.eqb x "flags" then Some 0 else None
       end;
     symbolic := fun e => match e with BVV _ => false | BVS _ => true end;
     satisfiable := true |}.

Definition pinned_state : SimState :=
  {| history := history demo_state;
     solver := pinned_solver;
     options := ∅;
     scratch := scratch demo_state;
     arch := arch demo_state;
     inspect := inspect demo_state |}.

(** [open(0x1000, 0, 0o644)] with a Bureau that cannot reach its agent. *)
Definition unreachable_bureau : Bureau :=
  {| invoke_syscall := fun _ _ _ _ => inl (CollaboratorError "agent unreachable") |}.

Definition unreachable_engine : Engine :=
  {| project := {| simos := simos (project open_engine);
                   bureau := unreachable_bureau |};
     SIM_LIBRARIES_linux := demo_lib |}.

(** The state of the first configuration with a breakpoint that raises
    after the syscall. *)
Definition breakpoint_state : SimState :=
  {| history := history demo_state;
     solver := demo_solver;
     options := ∅;
     scratch := scratch demo_state;
     arch := arch demo_state;
     inspect := fun _ when _ =>
       match when with
       | BP_BEFORE => None
       | BP_AFTER => Some (CollaboratorError "breakpoint")
       end |}.

(** No hint and nothing declared. *)
Definition bare_engine : Engine :=
  {| project :=
       {| simos := {| syscall_cc := fun _ => demo_cc (BVV 0) [];
                      syscall_abi := fun _ => None;
                      syscall_abis := [] |};
          bureau := demo_bureau |};
     SIM_LIBRARIES_linux := demo_lib |}.

(** A successors object that already holds a successor and an artifact. *)
Definition used_successors : SimSuccessors :=
  {| sort := Some "IRSB";
     artifacts := {[ "irsb_size" := ArtStr "12" ]};
     description := Some "IRSB";
     processed := false;
     all_successors :=
       [ {| succ_state := boring_state; succ_target := BVV 4096;
            succ_guard := BoolS "c"; succ_jumpkind := "Ijk_Boring" |} ] |}.

Definition used_world : World :=
  {| w_successors := used_successors; w_state := demo_state;
     w_trace := [Inspect "instruction" BP_BEFORE "" demo_state] |}.

(** ** Vocabulary of the properties *)

(** The classes of fatal outcome, by the exception that carries each. *)
Definition AmbiguousSyscallNumber : Exception :=
  AngrUnsupportedSyscallError (Literal
    "Trying to perform a syscall on an emulated system which is not currently cofigured to support syscalls. To resolve this, make sure that your SimOS is a subclass of SimUserspace, or set the BYPASS_UNSUPPORTED_SYSCALL state option.").

Definition UnsatisfiableState : Exception :=
  AngrUnsupportedSyscallError (Literal "The program state is not satisfiable").

Definition SymbolicSyscallNumber : Exception :=
  AngrUnsupportedSyscallError (Literal "Got a symbolic syscall number").

Definition UnresolvedAbi (num : Z) (state : SimState) : Exception :=
  AngrSyscallError
    (Format "Cannot determine the ABI for syscall %d on architecture %s."
            [FmtInt num; FmtStr (arch_name (arch state))]).

Definition UnknownSyscallNumber (num : Z) (state : SimState) : Exception :=
  AngrUnsupportedSyscallError
    (Format "Syscall %d for architecture %s is not found in the syscall mapping"
            [FmtInt num; FmtStr (lower (arch_name (arch state)))]).

(** The number of calls to the Bureau in a trace. *)
Fixpoint remote_invocations (t : list Event) : nat :=
  match t with
  | [] => O
  | InvokeSyscall _ _ _ _ :: r => S (remote_invocations r)
  | Inspect _ _ _ _ :: r => remote_invocations r
  end.

(** The expression the dispatcher reads the syscall number from. *)
Definition syscall_num_expr (self : Engine) (state : SimState) : Expr :=
  syscall_num (syscall_cc (simos (project self)) state) state.

(** The expression at argument position [i]. *)
Definition arg_expr (self : Engine) (state : SimState) (i : nat) : Expr :=
  arg (syscall_cc (simos (project self)) state) state i.

(** The entry of the syscall-number table for [(abi, num)]. *)
Definition table_name (self : Engine) (abi : string) (num : Z) : option string :=
  default ∅ (syscall_number_mapping (SIM_LIBRARIES_linux self) !! abi) !! num.

(** A dispatch attempt that gets as far as a resolved name: the previous jump
    was a syscall trap, the number is concrete, the ABI is determined and the
    table names the syscall. *)
Definition resolves (self : Engine) (state : SimState) (num : Z)
    (abi name : string) : Prop :=
  not_after_syscall state = false /\
  eval_one (solver state) (syscall_num_expr self state) = Some num /\
  _syscall_abi self state num = Normal abi /\
  table_name self abi num = Some name /\
  name <> "".

(** The prototype the table provider gives for a resolved syscall. *)
Definition prototype_of (self : Engine) (state : SimState) (abi name : string)
    : option SimTypeFunction :=
  get_prototype (SIM_LIBRARIES_linux self) abi name (arch state).

(** What the solver promises of an expression it does not call symbolic:
    evaluating it yields its value. *)
Definition evaluates_concrete (s : SimSolver) : Prop :=
  forall e, symbolic s e = false -> is_Some (eval_one s e).

(** The argument loop as the dispatcher runs it. *)
Definition concretize (self : Engine) (state : SimState)
    (proto : SimTypeFunction) : Result (list Z) :=
  extract_args state (syscall_cc (simos (project self)) state) 0
               (args proto) [].

(** The state as the Bureau sees it on the commit path. *)
Definition reset_scratch (state : SimState) : SimState :=
  set_recent_block_count 1 (set_sim_procedure None state).

(** The successors object after lines 115-121, for the syscall [name]. *)
Definition tagged_successors (s : SimSuccessors) (name : string)
    : SimSuccessors :=
  {| sort := Some "SimProcedure";
     artifacts :=
       <["adds_exits" := ArtBool true]> (
       <["no_ret" := ArtBool false]> (
       <["name" := ArtStr name]> (
       <["is_syscall" := ArtBool true]> (artifacts s))));
     description := description s;
     processed := processed s;
     all_successors := all_successors s |}.

(** The world after lines 115-125 and the calls recorded in [events]. *)
Definition written_world (w : World) (name : string) (events : list Event)
    : World :=
  {| w_successors := tagged_successors (w_successors w) name;
     w_state := reset_scratch (w_state w);
     w_trace := w_trace w ++ events |}.

(** The world a committed dispatch leaves behind, for the syscall [name] with
    number [num] and concrete arguments [call_args], when the Bureau answers
    [succ] and the return address is [target]. *)
Definition commit_world (self : Engine) (w : World) (num : Z) (name : string)
    (call_args : list Z) (succ : SimState) (target : Expr) : World :=
  let cc := syscall_cc (simos (project self)) (w_state w) in
  let st := reset_scratch (w_state w) in
  {| w_successors :=
       {| sort := Some "SimProcedure";
          artifacts :=
            <["adds_exits" := ArtBool true]> (
            <["no_ret" := ArtBool false]> (
            <["name" := ArtStr name]> (
            <["is_syscall" := ArtBool true]> (artifacts (w_successors w)))));
          description := Some (("SimProcedure " ++ name) ++ " (syscall)")%string;
          processed := true;
          all_successors := all_successors (w_successors w) ++
            [ {| succ_state := succ;
                 succ_target := target;
                 succ_guard := claripy_true;
                 succ_jumpkind := "Ijk_Ret" |} ] |};
     w_state := st;
     w_trace := w_trace w ++
       [ Inspect "syscall" BP_BEFORE name st;
         InvokeSyscall st num call_args cc;
         Inspect "syscall" BP_AFTER name st ] |}.

(** Where lines 114-142 stop and what they leave, once the arguments are
    [call_args]: each of the four calls that leave the engine either raises,
    and the method ends there, or returns. *)
Definition commit_outcome (self : Engine) (w : World) (num : Z) (name : string)
    (call_args : list Z) : Result unit * World :=
  let cc := syscall_cc (simos (project self)) (w_state w) in
  let st := reset_scratch (w_state w) in
  let before := Inspect "syscall" BP_BEFORE name st in
  let invoke := InvokeSyscall st num call_args cc in
  let after := Inspect "syscall" BP_AFTER name st in
  match inspect st "syscall" BP_BEFORE name with
  | Some e => (Raise e, written_world w name [before])
  | None =>
      match invoke_syscall (bureau (project self)) st num call_args cc with
      | inl e => (Raise e, written_world w name [before; invoke])
      | inr succ =>
          match return_addr_get_value cc st with
          | inl e => (Raise e, written_world w name [before; invoke])
          | inr target =>
              match inspect st "syscall" BP_AFTER name with
              | Some e =>
                  (Raise e,
                   {| w_successors :=
                        add_successor (tagged_successors (w_successors w) name)
                                      succ target claripy_true "Ijk_Ret";
                      w_state := st;
                      w_trace := w_trace w ++ [before; invoke; after] |})
              | None =>
                  (Normal tt, commit_world self w num name call_args succ target)
              end
          end
      end
  end.


(** The exception [e] comes out of one of the four calls of the commit
    path. *)
Definition raised_on_commit (self : Engine) (state : SimState) (num : Z)
    (name : string) (call_args : list Z) (e : Exception) : Prop :=
  let cc := syscall_cc (simos (project self)) state in
  let st := reset_scratch state in
  inspect st "syscall" BP_BEFORE name = Some e \/
  invoke_syscall (bureau (project self)) st num call_args cc = inl e \/
  return_addr_get_value cc st = inl e \/
  inspect st "syscall" BP_AFTER name = Some e.


(** [open(0x1000, 0, 0o644)] committed from the world [w] of the first
    configuration. *)
Definition open_commit (w : World) : World :=
  commit_world open_engine w 2 "open" [4096; 0; 420]
    (set_recent_block_count 2 (reset_scratch (w_state w))) (BVV 4198400).

(** ** Helper lemmas *)

Section Dispatch.

Variable self : Engine.
Variable w : World.

Lemma not_after_syscall_local :
  not_after_syscall (w_state w) = true ->
  process_successors self w = (Super, w).
Proof.
  intros H. unfold process_successors, bind, get_state. simpl. rewrite H. reflexivity.
Qed.

Lemma symbolic_number_raises :
  not_after_syscall (w_state w) = false ->
  eval_one (solver (w_state w)) (syscall_num_expr self (w_state w)) = None ->
  process_successors self w =
    (Raise (if negb (bool_decide (BYPASS_UNSUPPORTED_SYSCALL ∈ options (w_state w)))
            then AmbiguousSyscallNumber
            else if negb (satisfiable (solver (w_state w)))
                 then UnsatisfiableState else SymbolicSyscallNumber), w).
Proof.
  intros H1 H2. unfold process_successors, bind, get_state. simpl.
  rewrite H1. unfold syscall_num_expr in H2. rewrite H2.
  destruct (bool_decide _); simpl; [destruct (satisfiable _)|]; reflexivity.
Qed.

Lemma _syscall_abi_not_super (st : SimState) (num : Z) :
  _syscall_abi self st num <> Super.
Proof.
  unfold _syscall_abi.
  destruct (syscall_abi _ _); [discriminate|].
  destruct (syscall_abis _) as [|[a r] [|e l]]; try discriminate;
    destruct (scan_abis _ _); discriminate.
Qed.

Lemma unresolved_abi_raises (num : Z) (e : Exception) :
  not_after_syscall (w_state w) = false ->
  eval_one (solver (w_state w)) (syscall_num_expr self (w_state w)) = Some num ->
  _syscall_abi self (w_state w) num = Raise e ->
  process_successors self w = (Raise e, w).
Proof.
  intros H1 H2 H3. unfold process_successors, bind, get_state, lift. simpl.
  rewrite H1. unfold syscall_num_expr in H2. rewrite H2. simpl.
  rewrite H3. reflexivity.
Qed.

Lemma unknown_number_raises (num : Z) (abi : string) :
  not_after_syscall (w_state w) = false ->
  eval_one (solver (w_state w)) (syscall_num_expr self (w_state w)) = Some num ->
  _syscall_abi self (w_state w) num = Normal abi ->
  truthy_str (table_name self abi num) = false ->
  process_successors self w =
    (Raise (if negb (bool_decide (BYPASS_UNSUPPORTED_SYSCALL ∈ options (w_state w)))
            then UnknownSyscallNumber num (w_state w)
            else NotImplementedError (Literal "what to do...")), w).
Proof.
  intros H1 H2 H3 H4. unfold process_successors, bind, get_state, lift. simpl.
  rewrite H1. unfold syscall_num_expr in H2. rewrite H2. simpl.
  rewrite H3. unfold table_name in H4. rewrite H4. simpl.
  destruct (bool_decide _); reflexivity.
Qed.

Lemma truthy_str_Some (name : string) :
  name <> "" -> truthy_str (Some name) = true.
Proof. destruct name; [congruence | reflexivity]. Qed.

Lemma truthy_str_inv (o : option string) :
  truthy_str o = true -> exists name, o = Some name /\ name <> "".
Proof.
  destruct o as [[|c r]|]; simpl; try discriminate.
  intros _. eexists. split; [reflexivity | discriminate].
Qed.

Lemma resolved_dispatch (num : Z) (abi name : string) :
  resolves self (w_state w) num abi name ->
  process_successors self w =
    if bool_decide (name ∈ syscall_blacklist abi) then (Super, w)
    else match prototype_of self (w_state w) abi name with
         | None =>
             (Raise (if negb (bool_decide
                                (BYPASS_UNSUPPORTED_SYSCALL ∈ options (w_state w)))
                     then AngrUnsupportedSyscallError
                            (Format "Syscall %d %s for architecture %s is not found in the syscall prototypes"
                               [FmtInt num; FmtStr name;
                                FmtStr (lower (arch_name (arch (w_state w))))])
                     else NotImplementedError (Literal "what to do...")), w)
         | Some proto =>
             match concretize self (w_state w) proto with
             | Normal call_args => commit_outcome self w num name call_args
             | Super => (Super, w)
             | Raise e => (Raise e, w)
             end
         end.
Proof.
  intros (H1 & H2 & H3 & H4 & H5).
  unfold process_successors, bind, get_state, lift. simpl.
  rewrite H1. unfold syscall_num_expr in H2. rewrite H2. simpl.
  rewrite H3. unfold table_name in H4. rewrite H4.
  rewrite (truthy_str_Some _ H5). simpl.
  destruct (bool_decide _); [reflexivity|].
  unfold prototype_of, concretize.
  destruct (get_prototype _ _ _ _) as [proto|].
  - destruct (extract_args _ _ _ _ _) as [call_args| |e]; try reflexivity.
    unfold modify_successors, modify_state, _inspect, emit, bind, get_state,
      call, raise, ret, commit_outcome, commit_world, written_world,
      tagged_successors, reset_scratch.
    simpl.
    destruct (inspect (w_state w) "syscall" BP_BEFORE name); [reflexivity|].
    simpl. destruct (invoke_syscall _ _ _ _ _) as [e|succ]; simpl;
      [rewrite <- !app_assoc; reflexivity|].
    destruct (return_addr_get_value _ _) as [e|target]; simpl;
      [rewrite <- !app_assoc; reflexivity|].
    destruct (inspect (w_state w) "syscall" BP_AFTER name); simpl;
      rewrite <- !app_assoc; reflexivity.
  - destruct (bool_decide _); reflexivity.
Qed.

End Dispatch.

(** The argument loop, position by position. *)
Section ArgumentLoop.

Variable state : SimState.
Variable cc : SimCC.

Lemma extract_args_normal (arg_types : list string) :
  forall (arg_idx : nat) (acc l : list Z),
    extract_args state cc arg_idx arg_types acc = Normal l ->
    exists vs : list Z,
      l = (acc ++ vs)%list /\
      length vs = length arg_types /\
      forall i : nat, (i < length arg_types)%nat ->
        symbolic (solver state) (arg cc state (arg_idx + i)) = false /\
        (vs !! i) = eval_one (solver state) (arg cc state (arg_idx + i)).
Proof.
  induction arg_types as [|ty rest IH]; intros arg_idx acc l H; simpl in H.
  - inversion H; subst. exists []. rewrite app_nil_r.
    repeat split; simpl in *; lia.
  - destruct (symbolic (solver state) (arg cc state arg_idx)) eqn:Hs;
      simpl in H; [discriminate|].
    destruct (eval_one (solver state) (arg cc state arg_idx)) as [v|] eqn:He;
      [|discriminate].
    apply IH in H as (vs & -> & Hlen & Hall).
    exists (v :: vs). rewrite <- app_assoc. split; [reflexivity|].
    split; [simpl; lia|].
    intros [|i] Hi.
    + rewrite Nat.add_0_r, Hs, He. split; reflexivity.
    + simpl in Hi. replace (arg_idx + S i)%nat with (S arg_idx + i)%nat by lia.
      apply Hall. lia.
Qed.

Lemma extract_args_concrete (arg_types : list string) :
  evaluates_concrete (solver state) ->
  forall (arg_idx : nat) (acc : list Z),
    (forall i : nat, (i < length arg_types)%nat ->
       symbolic (solver state) (arg cc state (arg_idx + i)) = false) ->
    exists l, extract_args state cc arg_idx arg_types acc = Normal l.
Proof.
  intros Hc. induction arg_types as [|ty rest IH]; intros arg_idx acc Hall; simpl.
  - eauto.
  - pose proof (Hall O ltac:(simpl; lia)) as Hs. rewrite Nat.add_0_r in Hs.
    rewrite Hs. simpl. destruct (Hc _ Hs) as [v ->].
    apply IH. intros i Hi.
    replace (S arg_idx + i)%nat with (arg_idx + S i)%nat by lia.
    apply Hall. simpl. lia.
Qed.

Lemma extract_args_symbolic (arg_types : list string) :
  evaluates_concrete (solver state) ->
  forall (arg_idx : nat) (acc : list Z) (i : nat),
    (i < length arg_types)%nat ->
    symbolic (solver state) (arg cc state (arg_idx + i)) = true ->
    extract_args state cc arg_idx arg_types acc = Super.
Proof.
  intros Hc. induction arg_types as [|ty rest IH]; intros arg_idx acc i Hi Hs;
    simpl in *; [lia|].
  destruct (symbolic (solver state) (arg cc state arg_idx)) eqn:Hs0; simpl;
    [reflexivity|].
  destruct (Hc _ Hs0) as [v ->].
  destruct i as [|i]; [rewrite Nat.add_0_r in Hs; congruence|].
  apply (IH _ _ i); [lia|].
  replace (S arg_idx + i)%nat with (arg_idx + S i)%nat by lia. exact Hs.
Qed.

End ArgumentLoop.

(** ** Bypass policy *)

Lemma syscall_blacklist_cases (abi : string) :
  syscall_blacklist abi = BASE_SYSCALL_BYPASS_LIST \/
  syscall_blacklist abi = BASE_SYSCALL_BYPASS_LIST ∪ {[ "set_thread_area" ]}.
Proof.
  unfold syscall_blacklist, SYSCALL_BYPASS_LISTS.
  rewrite !lookup_insert, lookup_empty.
  repeat case_decide; simpl; auto.
Qed.

(** C1: a dispatch attempt whose resolved syscall name is in the bypass set of
    its ABI is handed to the next handler (LOCAL) with the successors object,
    the state and the trace untouched: no successor is produced and the
    Bureau is not called, whatever the arguments are. For "amd64" the bypass
    set is exactly mmap, munmap, brk, write, read, exit, exit_group, so
    "write" is bypassed there. *)
Theorem C1_bypassed_syscall_stays_local
    (self : Engine) (w : World) (num : Z) (abi name : string) :
  resolves self (w_state w) num abi name ->
  name ∈ syscall_blacklist abi ->
  process_successors self w = (Super, w) /\
  all_successors (w_successors (snd (process_successors self w))) =
    all_successors (w_successors w) /\
  remote_invocations (w_trace (snd (process_successors self w))) =
    remote_invocations (w_trace w) /\
  syscall_blacklist "amd64" =
    {[ "mmap"; "munmap"; "brk"; "write"; "read"; "exit"; "exit_group" ]} /\
  "write" ∈ syscall_blacklist "amd64".
Proof.
  intros Hres Hin.
  assert (Hps : process_successors self w = (Super, w)).
  { rewrite (resolved_dispatch self w num abi name Hres).
    rewrite bool_decide_eq_true_2 by exact Hin. reflexivity. }
  assert (Hamd : syscall_blacklist "amd64" = BASE_SYSCALL_BYPASS_LIST).
  { unfold syscall_blacklist, SYSCALL_BYPASS_LISTS.
    rewrite lookup_insert_eq. reflexivity. }
  rewrite Hps, Hamd. simpl.
  do 4 (split; [reflexivity|]).
  unfold BASE_SYSCALL_BYPASS_LIST. set_solver.
Qed.


(** ** ABI resolution *)

Lemma scan_abis_first (pre post : list (string * (string * Z * Z)))
    (abi table : string) (lo hi num : Z) :
  (forall a t l h, In (a, (t, l, h)) pre -> ~ (l <= num < h)) ->
  lo <= num < hi ->
  scan_abis (pre ++ (abi, (table, lo, hi)) :: post) num = Some abi.
Proof.
  intros Hpre Hin. induction pre as [|[a [[t l] h]] pre IH]; simpl.
  - replace (lo <=? num) with true by lia. replace (num <? hi) with true by lia.
    reflexivity.
  - assert (Hn : ~ (l <= num < h)) by (apply (Hpre a t); left; reflexivity).
    replace ((l <=? num) && (num <? h)) with false
      by (destruct (Z.leb_spec l num), (Z.ltb_spec num h); simpl; lia).
    apply IH. intros a' t' l' h' H. apply (Hpre a' t'). right. exact H.
Qed.

Lemma scan_abis_none (abis : list (string * (string * Z * Z))) (num : Z) :
  (forall a t l h, In (a, (t, l, h)) abis -> ~ (l <= num < h)) ->
  scan_abis abis num = None.
Proof.
  intros Hall. induction abis as [|[a [[t l] h]] abis IH]; simpl; [reflexivity|].
  assert (Hn : ~ (l <= num < h)) by (apply (Hall a t); left; reflexivity).
  replace ((l <=? num) && (num <? h)) with false
    by (destruct (Z.leb_spec l num), (Z.ltb_spec num h); simpl; lia).
  apply IH. intros a' t' l' h' H. apply (Hall a' t'). right. exact H.
Qed.

(** C4: [_syscall_abi] takes the first rule that applies. A direct hint of the
    OS model is returned; without a hint, a single declared ABI is returned
    for every number; otherwise the first declared ABI whose half-open range
    [min, max) holds the number is returned, and when no range holds it the
    resolver raises the ABI error. With ranges [0,300) and [300,600), 0 and
    299 give the first ABI, 300 and 599 the second, and 600 fails. *)
Theorem C4_resolve_abi_first_match (self : Engine) (state : SimState) (num : Z) :
  let os := simos (project self) in
  (forall a, syscall_abi os state = Some a ->
     _syscall_abi self state num = Normal a) /\
  (forall a r, syscall_abi os state = None ->
     syscall_abis os = [(a, r)] ->
     _syscall_abi self state num = Normal a) /\
  (forall pre a t lo hi post,
     syscall_abi os state = None ->
     length (syscall_abis os) <> 1%nat ->
     syscall_abis os = (pre ++ (a, (t, lo, hi)) :: post)%list ->
     (forall a' t' lo' hi', In (a', (t', lo', hi')) pre -> ~ (lo' <= num < hi')) ->
     lo <= num < hi ->
     _syscall_abi self state num = Normal a) /\
  (syscall_abi os state = None ->
   length (syscall_abis os) <> 1%nat ->
   (forall a t lo hi, In (a, (t, lo, hi)) (syscall_abis os) -> ~ (lo <= num < hi)) ->
   _syscall_abi self state num = Raise (UnresolvedAbi num state)) /\
  _syscall_abi one_abi_engine state num = Normal "first" /\
  _syscall_abi two_abi_engine state 0 = Normal "first" /\
  _syscall_abi two_abi_engine state 299 = Normal "first" /\
  _syscall_abi two_abi_engine state 300 = Normal "second" /\
  _syscall_abi two_abi_engine state 599 = Normal "second" /\
  _syscall_abi two_abi_engine state 600 = Raise (UnresolvedAbi 600 state).
Proof.
  intros os. subst os. unfold _syscall_abi.
  split; [|split; [|split; [|split]]].
  - intros a ->. reflexivity.
  - intros a r -> ->. reflexivity.
  - intros pre a t lo hi post -> Hlen Heq Hpre Hin.
    pose proof (scan_abis_first pre post a t lo hi num Hpre Hin) as Hscan.
    rewrite <- Heq in Hscan. clear Heq.
    destruct (syscall_abis _) as [|[a0 r0] [|e l]]; simpl in Hlen;
      [discriminate | congruence | rewrite Hscan; reflexivity].
  - intros -> Hlen Hall.
    pose proof (scan_abis_none _ num Hall) as Hscan.
    destruct (syscall_abis _) as [|[a0 r0] [|e l]]; simpl in Hlen;
      [reflexivity | congruence | rewrite Hscan; reflexivity].
  - repeat split.
Qed.

(** ** Failed number resolution *)

(** C5: a syscall number that cannot be resolved ends the attempt with a
    classified error and nothing else happens (the world is as it was: no
    successor, no call to the Bureau). A number expression that does not
    evaluate to one value gives AmbiguousSyscallNumber when
    BYPASS_UNSUPPORTED_SYSCALL is not set, else UnsatisfiableState when the
    state is unsatisfiable, else SymbolicSyscallNumber; a concrete number
    without a table entry gives UnknownSyscallNumber when the option is not
    set. The four classes are distinct errors. *)
Theorem C5_failed_number_resolution_is_fatal (self : Engine) (w : World) :
  not_after_syscall (w_state w) = false ->
  (eval_one (solver (w_state w)) (syscall_num_expr self (w_state w)) = None ->
     (BYPASS_UNSUPPORTED_SYSCALL ∉ options (w_state w) ->
        process_successors self w = (Raise AmbiguousSyscallNumber, w)) /\
     (BYPASS_UNSUPPORTED_SYSCALL ∈ options (w_state w) ->
      satisfiable (solver (w_state w)) = false ->
        process_successors self w = (Raise UnsatisfiableState, w)) /\
     (BYPASS_UNSUPPORTED_SYSCALL ∈ options (w_state w) ->
      satisfiable (solver (w_state w)) = true ->
        process_successors self w = (Raise SymbolicSyscallNumber, w))) /\
  (forall (num : Z) (abi : string),
     eval_one (solver (w_state w)) (syscall_num_expr self (w_state w)) = Some num ->
     _syscall_abi self (w_state w) num = Normal abi ->
     table_name self abi num = None ->
     BYPASS_UNSUPPORTED_SYSCALL ∉ options (w_state w) ->
       process_successors self w =
         (Raise (UnknownSyscallNumber num (w_state w)), w)) /\
  AmbiguousSyscallNumber <> UnsatisfiableState /\
  AmbiguousSyscallNumber <> SymbolicSyscallNumber /\
  UnsatisfiableState <> SymbolicSyscallNumber /\
  (forall num st, UnknownSyscallNumber num st <> AmbiguousSyscallNumber /\
                  UnknownSyscallNumber num st <> UnsatisfiableState /\
                  UnknownSyscallNumber num st <> SymbolicSyscallNumber).
Proof.
  intros Hsys. split; [|split].
  - intros Hnone.
    pose proof (symbolic_number_raises self w Hsys Hnone) as Hps.
    split; [|split].
    + intros Hopt. rewrite Hps, bool_decide_eq_false_2 by exact Hopt. reflexivity.
    + intros Hopt Hsat. rewrite Hps, bool_decide_eq_true_2, Hsat by exact Hopt.
      reflexivity.
    + intros Hopt Hsat. rewrite Hps, bool_decide_eq_true_2, Hsat by exact Hopt.
      reflexivity.
  - intros num abi Hnum Habi Htab Hopt.
    rewrite (unknown_number_raises self w num abi Hsys Hnum Habi)
      by (rewrite Htab; reflexivity).
    rewrite bool_decide_eq_false_2 by exact Hopt. reflexivity.
  - repeat split; discriminate.
Qed.

(** ** Argument concretization *)

(** C6 (as the code has it): with a solver that evaluates what it does not
    call symbolic, the argument loop succeeds exactly when no argument
    expression up to the prototype's argument count is symbolic by the
    solver's own test; on success the list has one entry per prototype
    argument, in order, each the value [eval_one] gives for the expression at
    that position; and a symbolic argument, whether or not the constraints
    leave it one value, gives the fallback exit, which carries no
    arguments. *)
Theorem C6_concretize_all_or_fallback
    (self : Engine) (state : SimState) (proto : SimTypeFunction) :
  evaluates_concrete (solver state) ->
  ((forall i : nat, (i < length (args proto))%nat ->
      symbolic (solver state) (arg_expr self state i) = false) <->
   (exists l, concretize self state proto = Normal l)) /\
  (forall l, concretize self state proto = Normal l ->
     length l = length (args proto) /\
     forall i : nat, (i < length (args proto))%nat ->
       exists v, eval_one (solver state) (arg_expr self state i) = Some v /\
                 l !! i = Some v) /\
  (forall i : nat, (i < length (args proto))%nat ->
     symbolic (solver state) (arg_expr self state i) = true ->
     concretize self state proto = Super).
Proof.
  intros Hc. unfold concretize, arg_expr.
  split; [split|split].
  - intros Hall. apply (extract_args_concrete state _ _ Hc O []).
    intros i Hi. simpl. apply Hall, Hi.
  - intros [l Hl] i Hi.
    apply extract_args_normal in Hl as (vs & _ & _ & Hall).
    apply (Hall i) in Hi as [Hs _]. exact Hs.
  - intros l Hl.
    apply extract_args_normal in Hl as (vs & -> & Hlen & Hall). simpl.
    split; [exact Hlen|].
    intros i Hi. destruct (Hall i Hi) as [_ Hv]. simpl in Hv.
    destruct (lookup_lt_is_Some_2 vs i ltac:(lia)) as [v Hvi].
    exists v. split; [congruence | exact Hvi].
  - intros i Hi Hs.
    apply (extract_args_symbolic state _ _ Hc O [] i Hi). exact Hs.
Qed.

(** C2: a dispatch attempt that reaches the argument loop with some argument
    expression symbolic is handed to the next handler (LOCAL): the result is
    not an exception, and successors, state and trace are untouched, so the
    Bureau is not called. *)
Theorem C2_symbolic_argument_stays_local
    (self : Engine) (w : World) (num : Z) (abi name : string)
    (proto : SimTypeFunction) (i : nat) :
  resolves self (w_state w) num abi name ->
  prototype_of self (w_state w) abi name = Some proto ->
  (i < length (args proto))%nat ->
  symbolic (solver (w_state w)) (arg_expr self (w_state w) i) = true ->
  evaluates_concrete (solver (w_state w)) ->
  process_successors self w = (Super, w) /\
  (forall e, fst (process_successors self w) <> Raise e) /\
  remote_invocations (w_trace (snd (process_successors self w))) =
    remote_invocations (w_trace w).
Proof.
  intros Hres Hproto Hi Hs Hc.
  assert (Hps : process_successors self w = (Super, w)).
  { rewrite (resolved_dispatch self w num abi name Hres).
    destruct (bool_decide _); [reflexivity|].
    rewrite Hproto. unfold concretize.
    rewrite (extract_args_symbolic (w_state w) _ (args proto) Hc O [] i Hi Hs).
    reflexivity. }
  rewrite Hps. simpl. split; [reflexivity|]. split; [discriminate | reflexivity].
Qed.

(** ** The commit path *)



Lemma history_after_syscall (state : SimState) :
  not_after_syscall state = false -> exists h, history state = Some h.
Proof.
  unfold not_after_syscall. destruct (history state) as [h|]; [eauto | discriminate].
Qed.

(** The commit path ends normally only when its four calls return. *)
Lemma commit_outcome_normal (self : Engine) (w w' : World) (num : Z)
    (name : string) (call_args : list Z) :
  commit_outcome self w num name call_args = (Normal tt, w') ->
  exists succ target,
    inspect (reset_scratch (w_state w)) "syscall" BP_BEFORE name = None /\
    invoke_syscall (bureau (project self)) (reset_scratch (w_state w)) num
      call_args (syscall_cc (simos (project self)) (w_state w)) = inr succ /\
    return_addr_get_value (syscall_cc (simos (project self)) (w_state w))
      (reset_scratch (w_state w)) = inr target /\
    inspect (reset_scratch (w_state w)) "syscall" BP_AFTER name = None /\
    w' = commit_world self w num name call_args succ target.
Proof.
  unfold commit_outcome.
  destruct (inspect _ "syscall" BP_BEFORE name) eqn:Hb; [discriminate|].
  destruct (invoke_syscall _ _ _ _ _) as [e|succ] eqn:Hi; [discriminate|].
  destruct (return_addr_get_value _ _) as [e|target] eqn:Hr; [discriminate|].
  destruct (inspect _ "syscall" BP_AFTER name) eqn:Ha; [discriminate|].
  intros [= <-]. exists succ, target. auto.
Qed.


(** When the commit path raises, the exception is one of its four calls', the
    state is the reset one, the successors object is tagged and not marked
    processed by the method, at most one successor was added and at most one
    call to the Bureau was made, no later than the successor. *)
Lemma commit_outcome_raises (self : Engine) (w w' : World) (num : Z)
    (name : string) (call_args : list Z) (e : Exception) :
  commit_outcome self w num name call_args = (Raise e, w') ->
  raised_on_commit self (w_state w) num name call_args e /\
  w_state w' = reset_scratch (w_state w) /\
  sort (w_successors w') = Some "SimProcedure" /\
  processed (w_successors w') = processed (w_successors w) /\
  exists added events,
    all_successors (w_successors w') =
      (all_successors (w_successors w) ++ added)%list /\
    w_trace w' = (w_trace w ++ events)%list /\
    (length added <= remote_invocations events)%nat /\
    (remote_invocations events <= 1)%nat.
Proof.
  unfold commit_outcome, raised_on_commit.
  destruct (inspect _ "syscall" BP_BEFORE name) as [e0|] eqn:Hb.
  { intros [= <- <-]. split; [left; reflexivity|].
    do 3 (split; [reflexivity|]).
    exists [], [Inspect "syscall" BP_BEFORE name (reset_scratch (w_state w))].
    simpl. rewrite app_nil_r. repeat split; lia. }
  destruct (invoke_syscall _ _ _ _ _) as [e0|succ] eqn:Hi.
  { intros [= <- <-]. split; [right; left; reflexivity|].
    do 3 (split; [reflexivity|]).
    exists []. eexists. simpl. rewrite app_nil_r.
    split; [reflexivity|]. split; [reflexivity|]. simpl. lia. }
  destruct (return_addr_get_value _ _) as [e0|target] eqn:Hr.
  { intros [= <- <-]. split; [right; right; left; reflexivity|].
    do 3 (split; [reflexivity|]).
    exists []. eexists. simpl. rewrite app_nil_r.
    split; [reflexivity|]. split; [reflexivity|]. simpl. lia. }
  destruct (inspect _ "syscall" BP_AFTER name) as [e0|] eqn:Ha; [|discriminate].
  intros [= <- <-]. split; [right; right; right; reflexivity|].
  do 3 (split; [reflexivity|]).
  do 2 eexists. simpl.
  split; [reflexivity|]. split; [reflexivity|]. simpl. lia.
Qed.


(** Every way the method can end: delegation or an exception of its own with
    the world as it was, or the commit path. *)
Lemma process_successors_cases (self : Engine) (w : World) :
  process_successors self w = (Super, w) \/
  (exists e, process_successors self w = (Raise e, w)) \/
  (exists num abi name proto call_args,
     resolves self (w_state w) num abi name /\
     (name ∉ syscall_blacklist abi) /\
     prototype_of self (w_state w) abi name = Some proto /\
     concretize self (w_state w) proto = Normal call_args /\
     process_successors self w = commit_outcome self w num name call_args).
Proof.
  destruct (not_after_syscall (w_state w)) eqn:Hsys.
  { left. apply not_after_syscall_local, Hsys. }
  destruct (eval_one (solver (w_state w)) (syscall_num_expr self (w_state w)))
    as [num|] eqn:Hnum.
  2: { right; left. eexists. apply symbolic_number_raises; assumption. }
  destruct (_syscall_abi self (w_state w) num) as [abi| |e] eqn:Habi.
  2: { exfalso. exact (_syscall_abi_not_super self _ _ Habi). }
  2: { right; left. exists e. apply (unresolved_abi_raises self w num); assumption. }
  destruct (truthy_str (table_name self abi num)) eqn:Htab.
  2: { right; left. eexists. apply (unknown_number_raises self w num abi); assumption. }
  apply truthy_str_inv in Htab as (name & Htab & Hne).
  assert (Hres : resolves self (w_state w) num abi name)
    by (repeat split; assumption).
  rewrite (resolved_dispatch self w num abi name Hres).
  destruct (bool_decide (name ∈ syscall_blacklist abi)) eqn:Hbl; [left; reflexivity|].
  apply bool_decide_eq_false in Hbl.
  destruct (prototype_of self (w_state w) abi name) as [proto|] eqn:Hproto.
  2: { right; left. eexists. reflexivity. }
  destruct (concretize self (w_state w) proto) as [call_args| |e] eqn:Hargs.
  - right; right. exists num, abi, name, proto, call_args. repeat split; assumption.
  - left. reflexivity.
  - right; left. exists e. reflexivity.
Qed.

Lemma commit_inversion (self : Engine) (w w' : World) :
  process_successors self w = (Normal tt, w') ->
  exists num abi name proto call_args succ target,
    resolves self (w_state w) num abi name /\
    (name ∉ syscall_blacklist abi) /\
    prototype_of self (w_state w) abi name = Some proto /\
    concretize self (w_state w) proto = Normal call_args /\
    return_addr_get_value (syscall_cc (simos (project self)) (w_state w))
      (reset_scratch (w_state w)) = inr target /\
    w' = commit_world self w num name call_args succ target.
Proof.
  intros Hps.
  destruct (process_successors_cases self w)
    as [H | [[e H] | (num & abi & name & proto & call_args &
                       Hres & Hin & Hproto & Hargs & H)]];
    rewrite H in Hps; try discriminate.
  apply commit_outcome_normal in Hps
    as (succ & target & _ & _ & Hr & _ & ->).
  exists num, abi, name, proto, call_args, succ, target. auto 10.
Qed.




(** C9 (as the code has it): on every committed dispatch the description of
    the successors object is "SimProcedure ", the resolved syscall name and
    " (syscall)". *)
Theorem C9_description_of_committed_dispatch
    (self : Engine) (w w' : World) (num : Z) (abi name : string) :
  resolves self (w_state w) num abi name ->
  process_successors self w = (Normal tt, w') ->
  description (w_successors w') =
    Some ("SimProcedure " ++ name ++ " (syscall)")%string.
Proof.
  intros Hres Hps.
  rewrite (resolved_dispatch self w num abi name Hres) in Hps.
  destruct (bool_decide _); [discriminate|].
  destruct (prototype_of _ _ _ _) as [proto|]; [|discriminate].
  destruct (concretize _ _ _) as [call_args| |e]; try discriminate.
  apply commit_outcome_normal in Hps as (succ & target & _ & _ & _ & _ & ->).
  reflexivity.
Qed.
(** ** The properties on the concrete configuration *)

Lemma demo_solver_evaluates_concrete : evaluates_concrete demo_solver.
Proof.
  intros [v|x] H; [exists v; reflexivity | discriminate H].
Defined.

Ltac by_evaluation :=
  repeat split; try (vm_compute; reflexivity); try discriminate.

Ltac in_bypass_set := apply (bool_decide_unpack _); vm_compute; exact I.

Ltac not_in_bypass_set :=
  apply (proj1 (bool_decide_eq_false _)); vm_compute; reflexivity.

Ltac concrete_positions :=
  let i := fresh "i" in let Hi := fresh "Hi" in
  intros i Hi; simpl in Hi;
  do 3 (destruct i as [|i]; [reflexivity|]); lia.

Lemma C1_write_stays_local_witness :
  process_successors write_engine demo_world = (Super, demo_world).
Proof.
  refine (proj1 (C1_bypassed_syscall_stays_local
                   write_engine demo_world 1 "amd64" "write" _ _)).
  - by_evaluation.
  - in_bypass_set.
Defined.


Lemma C4_resolve_abi_witness :
  _syscall_abi open_engine demo_state 2 = Normal "amd64" /\
  _syscall_abi one_abi_engine demo_state 4000 = Normal "first" /\
  _syscall_abi two_abi_engine demo_state 300 = Normal "second" /\
  _syscall_abi two_abi_engine demo_state 600 =
    Raise (UnresolvedAbi 600 demo_state).
Proof.
  split; [|split; [|split]].
  - apply (proj1 (C4_resolve_abi_first_match open_engine demo_state 2)).
    reflexivity.
  - apply (proj1 (proj2 (C4_resolve_abi_first_match one_abi_engine demo_state 4000))
             "first" ("linux", 0, 300)); reflexivity.
  - apply (proj1 (proj2 (proj2
             (C4_resolve_abi_first_match two_abi_engine demo_state 300)))
             [("first", ("linux", 0, 300))] "second" "linux" 300 600 []).
    + reflexivity.
    + simpl. lia.
    + reflexivity.
    + intros a' t' lo' hi' [H|[]]. inversion H; subst. lia.
    + lia.
  - apply (proj1 (proj2 (proj2 (proj2
             (C4_resolve_abi_first_match two_abi_engine demo_state 600))))).
    + reflexivity.
    + simpl. lia.
    + intros a t lo hi [H|[H|[]]]; inversion H; subst; lia.
Defined.

Lemma C5_fatal_classes_witness :
  process_successors symbolic_number_engine (demo_world_with ∅ true) =
    (Raise AmbiguousSyscallNumber, demo_world_with ∅ true) /\
  process_successors symbolic_number_engine
      (demo_world_with {[ BYPASS_UNSUPPORTED_SYSCALL ]} false) =
    (Raise UnsatisfiableState,
     demo_world_with {[ BYPASS_UNSUPPORTED_SYSCALL ]} false) /\
  process_successors symbolic_number_engine
      (demo_world_with {[ BYPASS_UNSUPPORTED_SYSCALL ]} true) =
    (Raise SymbolicSyscallNumber,
     demo_world_with {[ BYPASS_UNSUPPORTED_SYSCALL ]} true) /\
  process_successors unknown_number_engine demo_world =
    (Raise (UnknownSyscallNumber 9 demo_state), demo_world).
Proof.
  split; [|split; [|split]].
  - apply (proj1 (proj1 (C5_failed_number_resolution_is_fatal
             symbolic_number_engine (demo_world_with ∅ true) eq_refl) eq_refl)).
    not_in_bypass_set.
  - apply (proj1 (proj2 (proj1 (C5_failed_number_resolution_is_fatal
             symbolic_number_engine
             (demo_world_with {[ BYPASS_UNSUPPORTED_SYSCALL ]} false) eq_refl)
             eq_refl))).
    + in_bypass_set.
    + reflexivity.
  - apply (proj2 (proj2 (proj1 (C5_failed_number_resolution_is_fatal
             symbolic_number_engine
             (demo_world_with {[ BYPASS_UNSUPPORTED_SYSCALL ]} true) eq_refl)
             eq_refl))).
    + in_bypass_set.
    + reflexivity.
  - apply (proj1 (proj2 (C5_failed_number_resolution_is_fatal
             unknown_number_engine demo_world eq_refl)) 9 "amd64").
    + reflexivity.
    + reflexivity.
    + vm_compute. reflexivity.
    + not_in_bypass_set.
Defined.

Lemma C6_concretize_witness :
  (exists l, concretize open_engine demo_state open_prototype = Normal l) /\
  concretize open_symbolic_engine demo_state open_prototype = Super.
Proof.
  split.
  - apply (proj1 (proj1 (C6_concretize_all_or_fallback
             open_engine demo_state open_prototype
             demo_solver_evaluates_concrete))).
    concrete_positions.
  - apply (proj2 (proj2 (C6_concretize_all_or_fallback
             open_symbolic_engine demo_state open_prototype
             demo_solver_evaluates_concrete)) 1%nat).
    + simpl. lia.
    + reflexivity.
Defined.

Lemma C2_symbolic_flags_witness :
  process_successors open_symbolic_engine demo_world = (Super, demo_world).
Proof.
  refine (proj1 (C2_symbolic_argument_stays_local
                   open_symbolic_engine demo_world 2 "amd64" "open"
                   open_prototype 1 _ _ _ _ _)).
  - by_evaluation.
  - reflexivity.
  - simpl. lia.
  - reflexivity.
  - exact demo_solver_evaluates_concrete.
Defined.




(** C6 as stated fails: with [flags] pinned to one value every argument of
    [open] is provably a single concrete value for a solver that evaluates
    what it does not call symbolic, and concretization falls back. *)
Lemma C6_single_value_counterexample :
  evaluates_concrete (solver pinned_state) /\
  (forall i : nat, (i < length (args open_prototype))%nat ->
     is_Some (eval_one (solver pinned_state)
                       (arg_expr open_symbolic_engine pinned_state i))) /\
  concretize open_symbolic_engine pinned_state open_prototype = Super /\
  ~ (exists l, concretize open_symbolic_engine pinned_state open_prototype
               = Normal l).
Proof.
  split; [|split; [|split]].
  - intros [v|x] H; [exists v; reflexivity | discriminate H].
  - intros i Hi. simpl in Hi.
    do 3 (destruct i as [|i]; [eexists; reflexivity|]). lia.
  - reflexivity.
  - intros [l Hl]. discriminate Hl.
Qed.



Lemma C9_open_description_witness :
  description (w_successors (open_commit demo_world)) =
  Some "SimProcedure open (syscall)".
Proof.
  apply (C9_description_of_committed_dispatch
           open_engine demo_world _ 2 "amd64" "open").
  - by_evaluation.
  - vm_compute. reflexivity.
Defined.

(** C9 as stated fails: [open] with concrete arguments is committed and the
    description is not "syscall open". *)
Lemma C9_description_counterexample :
  exists w' : World,
    resolves open_engine (w_state demo_world) 2 "amd64" "open" /\
    process_successors open_engine demo_world = (Normal tt, w') /\
    description (w_successors w') = Some "SimProcedure open (syscall)" /\
    description (w_successors w') <> Some ("syscall " ++ "open")%string.
Proof.
  exists (open_commit demo_world).
  split; [by_evaluation|].
  split; [vm_compute; reflexivity|].
  split; [reflexivity | discriminate].
Qed.

(** ** The entry guard *)

Lemma not_after_syscall_false_iff (state : SimState) :
  not_after_syscall state = false <->
  exists h p jk,
    history state = Some h /\ parent h = Some p /\ jumpkind p = Some jk /\
    startswith jk "Ijk_Sys" = true.
Proof.
  unfold not_after_syscall. split.
  - destruct (history state) as [h|]; [|discriminate].
    destruct (parent h) as [p|] eqn:Hp; [|discriminate].
    destruct (jumpkind p) as [jk|] eqn:Hj; [|discriminate].
    intros H. apply orb_false_elim in H as [_ H].
    apply negb_false_iff in H. simpl in H. exists h, p, jk.
    repeat split; assumption.
  - intros (h & p & jk & -> & -> & -> & Hpre). simpl.
    rewrite Hpre. destruct jk; [discriminate Hpre | reflexivity].
Qed.

(** X1: unless the state has a history whose parent's jump kind starts with
    Ijk_Sys, the method hands over to the next mixin with successors, state
    and trace untouched, whatever the calling convention, the solver, the
    tables and the Bureau are. *)
Theorem X1_other_jumps_are_delegated (self : Engine) (w : World) :
  (forall h p jk,
     history (w_state w) = Some h -> parent h = Some p ->
     jumpkind p = Some jk -> startswith jk "Ijk_Sys" = false) ->
  process_successors self w = (Super, w).
Proof.
  intros Hno. apply not_after_syscall_local.
  destruct (not_after_syscall (w_state w)) eqn:Hg; [reflexivity|].
  apply not_after_syscall_false_iff in Hg as (h & p & jk & Hh & Hp & Hj & Hpre).
  rewrite (Hno h p jk Hh Hp Hj) in Hpre. discriminate.
Qed.

(** X2: a jump kind counts as a syscall trap by prefix: with a parent jump
    kind that starts with Ijk_Sys the method goes past the guard, so an
    unresolvable syscall number makes it raise instead of delegating. *)
Theorem X2_syscall_jumps_are_handled (self : Engine) (w : World)
    (h p : SimStateHistory) (suffix : string) :
  history (w_state w) = Some h ->
  parent h = Some p ->
  jumpkind p = Some ("Ijk_Sys" ++ suffix)%string ->
  eval_one (solver (w_state w)) (syscall_num_expr self (w_state w)) = None ->
  exists e, process_successors self w = (Raise e, w).
Proof.
  intros Hh Hp Hj Hnum.
  assert (Hg : not_after_syscall (w_state w) = false).
  { apply not_after_syscall_false_iff. exists h, p, ("Ijk_Sys" ++ suffix)%string.
    repeat split; try assumption. destruct suffix; reflexivity. }
  eexists. apply symbolic_number_raises; assumption.
Qed.

(** ** Missing table entries *)

(** X3: a resolved syscall outside the bypass set without a prototype is
    fatal and leaves the world untouched: AngrUnsupportedSyscallError with
    the prototype message when BYPASS_UNSUPPORTED_SYSCALL is not set,
    NotImplementedError when it is. *)
Theorem X3_missing_prototype_raises
    (self : Engine) (w : World) (num : Z) (abi name : string) :
  resolves self (w_state w) num abi name ->
  name ∉ syscall_blacklist abi ->
  prototype_of self (w_state w) abi name = None ->
  (BYPASS_UNSUPPORTED_SYSCALL ∉ options (w_state w) ->
     process_successors self w =
       (Raise (AngrUnsupportedSyscallError
          (Format "Syscall %d %s for architecture %s is not found in the syscall prototypes"
                  [FmtInt num; FmtStr name;
                   FmtStr (lower (arch_name (arch (w_state w))))])), w)) /\
  (BYPASS_UNSUPPORTED_SYSCALL ∈ options (w_state w) ->
     process_successors self w =
       (Raise (NotImplementedError (Literal "what to do...")), w)).
Proof.
  intros Hres Hin Hproto.
  rewrite (resolved_dispatch self w num abi name Hres).
  rewrite bool_decide_eq_false_2 by exact Hin. rewrite Hproto.
  split; intros Hopt.
  - rewrite bool_decide_eq_false_2 by exact Hopt. reflexivity.
  - rewrite bool_decide_eq_true_2 by exact Hopt. reflexivity.
Qed.

(** X4: with BYPASS_UNSUPPORTED_SYSCALL set, a concrete number without a
    usable table entry does not fall back to the next mixin: the method
    raises NotImplementedError and leaves the world untouched. *)
Theorem X4_tolerated_unknown_number_is_not_implemented
    (self : Engine) (w : World) (num : Z) (abi : string) :
  not_after_syscall (w_state w) = false ->
  eval_one (solver (w_state w)) (syscall_num_expr self (w_state w)) = Some num ->
  _syscall_abi self (w_state w) num = Normal abi ->
  table_name self abi num = None \/ table_name self abi num = Some "" ->
  BYPASS_UNSUPPORTED_SYSCALL ∈ options (w_state w) ->
  process_successors self w =
    (Raise (NotImplementedError (Literal "what to do...")), w).
Proof.
  intros Hsys Hnum Habi Htab Hopt.
  rewrite (unknown_number_raises self w num abi Hsys Hnum Habi)
    by (destruct Htab as [-> | ->]; reflexivity).
  rewrite bool_decide_eq_true_2 by exact Hopt. reflexivity.
Qed.

(** X5: a table entry that is the empty string counts as no entry: without
    BYPASS_UNSUPPORTED_SYSCALL the method raises the error of an unknown
    syscall number, and neither the bypass set nor the prototypes are
    consulted. *)
Theorem X5_blank_name_is_unknown
    (self : Engine) (w : World) (num : Z) (abi : string) :
  not_after_syscall (w_state w) = false ->
  eval_one (solver (w_state w)) (syscall_num_expr self (w_state w)) = Some num ->
  _syscall_abi self (w_state w) num = Normal abi ->
  table_name self abi num = Some "" ->
  BYPASS_UNSUPPORTED_SYSCALL ∉ options (w_state w) ->
  process_successors self w =
    (Raise (UnknownSyscallNumber num (w_state w)), w).
Proof.
  intros Hsys Hnum Habi Htab Hopt.
  rewrite (unknown_number_raises self w num abi Hsys Hnum Habi)
    by (rewrite Htab; reflexivity).
  rewrite bool_decide_eq_false_2 by exact Hopt. reflexivity.
Qed.

(** ** More on ABI resolution *)

Lemma scan_abis_Some_inv (abis : list (string * (string * Z * Z))) (num : Z)
    (abi : string) :
  scan_abis abis num = Some abi ->
  exists t lo hi, In (abi, (t, lo, hi)) abis /\ lo <= num < hi.
Proof.
  induction abis as [|[a [[t l] h]] abis IH]; simpl; [discriminate|].
  destruct (Z.leb_spec l num) as [Hl|Hl], (Z.ltb_spec num h) as [Hh|Hh]; simpl.
  - intros [= <-]. exists t, l, h. split; [left; reflexivity | lia].
  - intros Hs. destruct (IH Hs) as (t' & lo & hi & Hin & Hr). eauto 6.
  - intros Hs. destruct (IH Hs) as (t' & lo & hi & Hin & Hr). eauto 6.
  - intros Hs. destruct (IH Hs) as (t' & lo & hi & Hin & Hr). eauto 6.
Qed.

Lemma scan_abis_None_inv (abis : list (string * (string * Z * Z))) (num : Z) :
  scan_abis abis num = None ->
  forall a t lo hi, In (a, (t, lo, hi)) abis -> ~ (lo <= num < hi).
Proof.
  induction abis as [|[a0 [[t0 l] h]] abis IH]; simpl; [intros _ ? ? ? ? []|].
  destruct (Z.leb_spec l num) as [Hl|Hl], (Z.ltb_spec num h) as [Hh|Hh]; simpl;
    try discriminate;
    intros Hs a t lo hi [Heq | Hin];
    try (inversion Heq; subst; lia); apply (IH Hs a t lo hi Hin).
Qed.

(** X6: what [_syscall_abi] answers is always backed by the OS model: a
    returned ABI is the hint, the only declared ABI, or a declared ABI whose
    range [min, max) holds the number; and the resolver raises only the ABI
    error, only without a hint, and only when no declared range holds the
    number (in particular for every number when nothing is declared). *)
Theorem X6_resolved_abi_is_declared (self : Engine) (state : SimState) (num : Z) :
  (forall a, _syscall_abi self state num = Normal a ->
     syscall_abi (simos (project self)) state = Some a \/
     (syscall_abi (simos (project self)) state = None /\
      exists r, syscall_abis (simos (project self)) = [(a, r)]) \/
     (syscall_abi (simos (project self)) state = None /\
      exists t lo hi,
        In (a, (t, lo, hi)) (syscall_abis (simos (project self))) /\
        lo <= num < hi)) /\
  (forall e, _syscall_abi self state num = Raise e ->
     e = UnresolvedAbi num state /\
     syscall_abi (simos (project self)) state = None /\
     length (syscall_abis (simos (project self))) <> 1%nat /\
     forall a t lo hi,
       In (a, (t, lo, hi)) (syscall_abis (simos (project self))) ->
       ~ (lo <= num < hi)) /\
  (syscall_abi (simos (project self)) state = None ->
   syscall_abis (simos (project self)) = [] ->
   _syscall_abi self state num = Raise (UnresolvedAbi num state)).
Proof.
  unfold _syscall_abi.
  destruct (syscall_abi (simos (project self)) state) as [hint|].
  { split; [|split]; [intros a [= <-]; left; reflexivity | discriminate
                     | discriminate]. }
  destruct (syscall_abis (simos (project self))) as [|[a0 r0] [|e0 l]] eqn:Habis.
  - split; [|split]; [discriminate| |reflexivity].
    intros e [= <-].
    split; [reflexivity|]. split; [reflexivity|]. split; [discriminate|].
    intros ? ? ? ? [].
  - split; [|split]; [|discriminate|discriminate].
    intros a [= <-]. right; left. eauto.
  - destruct (scan_abis ((a0, r0) :: e0 :: l) num) as [abi|] eqn:Hscan.
    + split; [|split]; [|discriminate|discriminate].
      intros a [= <-]. right; right. split; [reflexivity|].
      apply scan_abis_Some_inv, Hscan.
    + split; [|split]; [discriminate| |discriminate].
      intros e [= <-].
      split; [reflexivity|]. split; [reflexivity|]. split; [discriminate|].
      apply scan_abis_None_inv, Hscan.
Qed.

(** X7: an ABI that cannot be determined ends the dispatch before the
    syscall table is read: after a syscall jump with a concrete number, no
    hint, not exactly one declared ABI and no declared range holding the
    number, the method raises the ABI error and leaves the world untouched. *)
Theorem X7_unresolved_abi_is_fatal (self : Engine) (w : World) (num : Z) :
  not_after_syscall (w_state w) = false ->
  eval_one (solver (w_state w)) (syscall_num_expr self (w_state w)) = Some num ->
  syscall_abi (simos (project self)) (w_state w) = None ->
  length (syscall_abis (simos (project self))) <> 1%nat ->
  (forall a t lo hi,
     In (a, (t, lo, hi)) (syscall_abis (simos (project self))) ->
     ~ (lo <= num < hi)) ->
  process_successors self w = (Raise (UnresolvedAbi num (w_state w)), w).
Proof.
  intros Hsys Hnum Hhint Hlen Hall.
  apply (unresolved_abi_raises self w num); try assumption.
  unfold _syscall_abi. rewrite Hhint.
  pose proof (scan_abis_none _ num Hall) as Hscan.
  destruct (syscall_abis _) as [|[a0 r0] [|e l]]; simpl in Hlen;
    [reflexivity | congruence | rewrite Hscan; reflexivity].
Qed.

(** ** The bypass policy, name by name *)

Lemma syscall_blacklist_mips (abi : string) :
  abi = "mips-n32" \/ abi = "mips-o32" \/ abi = "mips-n64" ->
  syscall_blacklist abi = BASE_SYSCALL_BYPASS_LIST ∪ {[ "set_thread_area" ]}.
Proof.
  unfold syscall_blacklist, SYSCALL_BYPASS_LISTS.
  intros [-> | [-> | ->]].
  - rewrite !lookup_insert_ne by discriminate. rewrite lookup_insert_eq. reflexivity.
  - rewrite !lookup_insert_ne by discriminate. rewrite lookup_insert_eq. reflexivity.
  - rewrite !lookup_insert_ne by discriminate. rewrite lookup_insert_eq. reflexivity.
Qed.

Lemma syscall_blacklist_other (abi : string) :
  abi <> "mips-n32" -> abi <> "mips-o32" -> abi <> "mips-n64" ->
  syscall_blacklist abi = BASE_SYSCALL_BYPASS_LIST.
Proof.
  intros H1 H2 H3. unfold syscall_blacklist, SYSCALL_BYPASS_LISTS.
  destruct (decide (abi = "amd64")) as [-> | Ha];
    [rewrite lookup_insert_eq; reflexivity|].
  rewrite lookup_insert_ne by congruence.
  destruct (decide (abi = "i386")) as [-> | Hi];
    [rewrite lookup_insert_eq; reflexivity|].
  rewrite !lookup_insert_ne by congruence. rewrite lookup_empty. reflexivity.
Qed.

(** X8: a syscall name is bypassed for an ABI exactly when it is one of the
    seven base names, or it is set_thread_area and the ABI is one of the
    three MIPS ABIs; so open and close are bypassed for no ABI. *)
Theorem X8_bypass_policy_by_name (abi name : string) :
  (name ∈ syscall_blacklist abi <->
     name ∈ BASE_SYSCALL_BYPASS_LIST \/
     (name = "set_thread_area" /\
      (abi = "mips-n32" \/ abi = "mips-o32" \/ abi = "mips-n64"))) /\
  ("open" ∉ syscall_blacklist abi) /\
  ("close" ∉ syscall_blacklist abi).
Proof.
  assert (Hopen : "open" ∉ BASE_SYSCALL_BYPASS_LIST ∪ {[ "set_thread_area" ]})
    by (apply (proj1 (bool_decide_eq_false _)); vm_compute; reflexivity).
  assert (Hclose : "close" ∉ BASE_SYSCALL_BYPASS_LIST ∪ {[ "set_thread_area" ]})
    by (apply (proj1 (bool_decide_eq_false _)); vm_compute; reflexivity).
  split; [|split].
  - destruct (decide (abi = "mips-n32")) as [E1 | N1];
      [|destruct (decide (abi = "mips-o32")) as [E2 | N2];
        [|destruct (decide (abi = "mips-n64")) as [E3 | N3]]].
    + rewrite (syscall_blacklist_mips abi) by auto.
      rewrite elem_of_union, elem_of_singleton. intuition.
    + rewrite (syscall_blacklist_mips abi) by auto.
      rewrite elem_of_union, elem_of_singleton. intuition.
    + rewrite (syscall_blacklist_mips abi) by auto.
      rewrite elem_of_union, elem_of_singleton. intuition.
    + rewrite (syscall_blacklist_other abi N1 N2 N3). intuition.
  - destruct (syscall_blacklist_cases abi) as [-> | ->].
    + intros Hin. apply Hopen, elem_of_union_l, Hin.
    + exact Hopen.
  - destruct (syscall_blacklist_cases abi) as [-> | ->].
    + intros Hin. apply Hclose, elem_of_union_l, Hin.
    + exact Hclose.
Qed.

(** ** More on the commit path *)

(** X9: a committed dispatch tags the successors object as a SimProcedure
    step with no_ret = False and adds_exits = True, leaves every other
    artifact key as it was, keeps the successors it already held in front of
    the new one, and gives the new successor the return address that the
    calling convention computes on the state after the scratch reset. *)
Theorem X9_commit_writes_only_its_artifacts (self : Engine) (w w' : World) :
  process_successors self w = (Normal tt, w') ->
  sort (w_successors w') = Some "SimProcedure" /\
  artifacts (w_successors w') !! "no_ret" = Some (ArtBool false) /\
  artifacts (w_successors w') !! "adds_exits" = Some (ArtBool true) /\
  (forall k : string,
     k <> "is_syscall" -> k <> "name" -> k <> "no_ret" -> k <> "adds_exits" ->
     artifacts (w_successors w') !! k = artifacts (w_successors w) !! k) /\
  exists succ,
    all_successors (w_successors w') =
      (all_successors (w_successors w) ++ [succ])%list /\
    return_addr_get_value (syscall_cc (simos (project self)) (w_state w))
                          (w_state w') =
      inr (succ_target succ).
Proof.
  intros Hps.
  apply commit_inversion in Hps
    as (num & abi & name & proto & call_args & succ & target &
        _ & _ & _ & _ & Hr & ->).
  split; [reflexivity|]. simpl.
  split; [rewrite lookup_insert_ne by discriminate; apply lookup_insert_eq|].
  split; [apply lookup_insert_eq|].
  split.
  - intros k H1 H2 H3 H4. rewrite !lookup_insert_ne by congruence. reflexivity.
  - eexists. split; [reflexivity | exact Hr].
Qed.

(** X10: the scratch reset touches nothing else of the state. Whenever the
    method gets as far as the "syscall" before-hook, however it ends after
    that, the state handed to the hook has the local-procedure marker cleared
    and the recent-block counter at 1, and its solver, options, architecture,
    breakpoints and the history's parent and jump kind are those of the state
    that came in. *)
Theorem X10_reset_touches_only_the_bookkeeping
    (self : Engine) (w : World) (name : string) (st : SimState)
    (rest : list Event) :
  w_trace (snd (process_successors self w)) =
    (w_trace w ++ Inspect "syscall" BP_BEFORE name st :: rest)%list ->
  sim_procedure (scratch st) = None /\
  option_map recent_block_count (history st) = Some 1 /\
  solver st = solver (w_state w) /\
  options st = options (w_state w) /\
  arch st = arch (w_state w) /\
  inspect st = inspect (w_state w) /\
  option_map parent (history st) = option_map parent (history (w_state w)) /\
  option_map jumpkind (history st) = option_map jumpkind (history (w_state w)).
Proof.
  intros Htrace.
  assert (Hnil : forall (l : list Event) x r, l <> (l ++ x :: r)%list).
  { intros l x r H. apply (f_equal (@length Event)) in H.
    rewrite length_app in H. simpl in H. lia. }
  destruct (process_successors_cases self w)
    as [H | [[e H] | (num & abi & name' & proto & call_args &
                       Hres & _ & _ & _ & H)]];
    rewrite H in Htrace; simpl in Htrace;
    try (exfalso; exact (Hnil _ _ _ Htrace)).
  assert (Hst : st = reset_scratch (w_state w)).
  { revert Htrace. unfold commit_outcome.
    destruct (inspect _ _ BP_BEFORE _);
      [|destruct (invoke_syscall _ _ _ _ _);
        [|destruct (return_addr_get_value _ _);
          [|destruct (inspect _ _ BP_AFTER _)]]];
      simpl; intros Ht; apply app_inv_head in Ht; inversion Ht; reflexivity. }
  subst st. destruct Hres as (Hsys & _).
  destruct (history_after_syscall _ Hsys) as [h Hh].
  simpl. rewrite Hh. simpl. repeat split; reflexivity.
Qed.

(** X11: what the Bureau is handed on a committed dispatch is exactly what
    the solver gives: the number is the one value of the syscall-number
    expression, there is one argument per prototype argument, position [i]
    holds the one value of the calling convention's argument [i] of the state
    as it came in, and none of these expressions is symbolic. *)
Theorem X11_bureau_gets_the_solver_values (self : Engine) (w w' : World) :
  process_successors self w = (Normal tt, w') ->
  exists num abi name proto call_args before after,
    prototype_of self (w_state w) abi name = Some proto /\
    w_trace w' = (w_trace w ++
      [ before;
        InvokeSyscall (w_state w') num call_args
                      (syscall_cc (simos (project self)) (w_state w));
        after ])%list /\
    eval_one (solver (w_state w)) (syscall_num_expr self (w_state w)) = Some num /\
    table_name self abi num = Some name /\
    length call_args = length (args proto) /\
    forall i : nat, (i < length (args proto))%nat ->
      symbolic (solver (w_state w)) (arg_expr self (w_state w) i) = false /\
      eval_one (solver (w_state w)) (arg_expr self (w_state w) i) =
        call_args !! i.
Proof.
  intros Hps.
  apply commit_inversion in Hps
    as (num & abi & name & proto & call_args & succ & target &
        Hres & _ & Hproto & Hargs & _ & ->).
  destruct Hres as (_ & Hnum & _ & Htab & _).
  apply extract_args_normal in Hargs as (vs & -> & Hlen & Hall).
  exists num, abi, name, proto, vs. do 2 eexists.
  split; [exact Hproto|]. split; [reflexivity|].
  split; [exact Hnum|]. split; [exact Htab|]. split; [exact Hlen|].
  intros i Hi. destruct (Hall i Hi) as [Hs Hv]. simpl in Hs, Hv.
  split; [exact Hs | symmetry; exact Hv].
Qed.


(** ** The argument loop, left to right *)

Lemma extract_args_first_symbolic (state : SimState) (cc : SimCC)
    (arg_types : list string) :
  forall (arg_idx : nat) (acc : list Z) (i : nat),
    (i < length arg_types)%nat ->
    symbolic (solver state) (arg cc state (arg_idx + i)) = true ->
    (forall j : nat, (j < i)%nat ->
       symbolic (solver state) (arg cc state (arg_idx + j)) = false /\
       is_Some (eval_one (solver state) (arg cc state (arg_idx + j)))) ->
    extract_args state cc arg_idx arg_types acc = Super.
Proof.
  induction arg_types as [|ty rest IH]; intros arg_idx acc i Hi Hs Hbefore;
    simpl in *; [lia|].
  destruct i as [|i].
  - rewrite Nat.add_0_r in Hs. rewrite Hs. reflexivity.
  - destruct (Hbefore O ltac:(lia)) as [Hs0 [v Hv]].
    rewrite Nat.add_0_r in Hs0, Hv. rewrite Hs0, Hv. simpl.
    apply (IH _ _ i); [lia | |].
    + replace (S arg_idx + i)%nat with (arg_idx + S i)%nat by lia. exact Hs.
    + intros j Hj.
      replace (S arg_idx + j)%nat with (arg_idx + S j)%nat by lia.
      apply Hbefore. lia.
Qed.

Lemma extract_args_first_failure (state : SimState) (cc : SimCC)
    (arg_types : list string) :
  forall (arg_idx : nat) (acc : list Z) (i : nat),
    (i < length arg_types)%nat ->
    symbolic (solver state) (arg cc state (arg_idx + i)) = false ->
    eval_one (solver state) (arg cc state (arg_idx + i)) = None ->
    (forall j : nat, (j < i)%nat ->
       symbolic (solver state) (arg cc state (arg_idx + j)) = false /\
       is_Some (eval_one (solver state) (arg cc state (arg_idx + j)))) ->
    extract_args state cc arg_idx arg_types acc = Raise SimSolverError.
Proof.
  induction arg_types as [|ty rest IH]; intros arg_idx acc i Hi Hs He Hbefore;
    simpl in *; [lia|].
  destruct i as [|i].
  - rewrite Nat.add_0_r in Hs, He. rewrite Hs, He. reflexivity.
  - destruct (Hbefore O ltac:(lia)) as [Hs0 [v Hv]].
    rewrite Nat.add_0_r in Hs0, Hv. rewrite Hs0, Hv. simpl.
    apply (IH _ _ i); [lia | | |].
    + replace (S arg_idx + i)%nat with (arg_idx + S i)%nat by lia. exact Hs.
    + replace (S arg_idx + i)%nat with (arg_idx + S i)%nat by lia. exact He.
    + intros j Hj.
      replace (S arg_idx + j)%nat with (arg_idx + S j)%nat by lia.
      apply Hbefore. lia.
Qed.

(** X13: the argument loop stops at the first symbolic argument: when
    argument [i] is symbolic and the arguments before it are concrete, the
    method hands over to the next mixin with the world untouched, and the
    arguments after position [i] are never looked at. *)
Theorem X13_first_symbolic_argument_decides
    (self : Engine) (w : World) (num : Z) (abi name : string)
    (proto : SimTypeFunction) (i : nat) :
  resolves self (w_state w) num abi name ->
  prototype_of self (w_state w) abi name = Some proto ->
  (i < length (args proto))%nat ->
  symbolic (solver (w_state w)) (arg_expr self (w_state w) i) = true ->
  (forall j : nat, (j < i)%nat ->
     symbolic (solver (w_state w)) (arg_expr self (w_state w) j) = false /\
     is_Some (eval_one (solver (w_state w)) (arg_expr self (w_state w) j))) ->
  process_successors self w = (Super, w).
Proof.
  intros Hres Hproto Hi Hs Hbefore.
  rewrite (resolved_dispatch self w num abi name Hres).
  destruct (bool_decide _); [reflexivity|].
  rewrite Hproto. unfold concretize.
  rewrite (extract_args_first_symbolic (w_state w) _ (args proto) O [] i
             Hi Hs Hbefore).
  reflexivity.
Qed.

(** X14: an argument that the solver does not call symbolic and yet cannot
    evaluate is not a fallback: when it comes before any symbolic argument,
    the solver's error leaves the method, with the world untouched. *)
Theorem X14_unevaluable_argument_raises
    (self : Engine) (w : World) (num : Z) (abi name : string)
    (proto : SimTypeFunction) (i : nat) :
  resolves self (w_state w) num abi name ->
  name ∉ syscall_blacklist abi ->
  prototype_of self (w_state w) abi name = Some proto ->
  (i < length (args proto))%nat ->
  symbolic (solver (w_state w)) (arg_expr self (w_state w) i) = false ->
  eval_one (solver (w_state w)) (arg_expr self (w_state w) i) = None ->
  (forall j : nat, (j < i)%nat ->
     symbolic (solver (w_state w)) (arg_expr self (w_state w) j) = false /\
     is_Some (eval_one (solver (w_state w)) (arg_expr self (w_state w) j))) ->
  process_successors self w = (Raise SimSolverError, w).
Proof.
  intros Hres Hin Hproto Hi Hs He Hbefore.
  rewrite (resolved_dispatch self w num abi name Hres).
  rewrite bool_decide_eq_false_2 by exact Hin.
  rewrite Hproto. unfold concretize.
  rewrite (extract_args_first_failure (w_state w) _ (args proto) O [] i
             Hi Hs He Hbefore).
  reflexivity.
Qed.

(** ** What the decision depends on *)

Lemma same_world (w2 : World) (st : SimState) :
  w_state w2 = st ->
  w2 = {| w_successors := w_successors w2; w_state := st;
          w_trace := w_trace w2 ++ [] |}.
Proof. intros <-. destruct w2. simpl. rewrite app_nil_r. reflexivity. Qed.

Lemma commit_outcome_frame (self : Engine) (w : World) (num : Z)
    (name : string) (call_args : list Z) :
  exists (r : Result unit) (f : SimSuccessors -> SimSuccessors)
         (st' : SimState) (events : list Event),
    forall w2, w_state w2 = w_state w ->
      commit_outcome self w2 num name call_args =
        (r, {| w_successors := f (w_successors w2); w_state := st';
               w_trace := w_trace w2 ++ events |}).
Proof.
  destruct (inspect (reset_scratch (w_state w)) "syscall" BP_BEFORE name)
    as [e|] eqn:Hb.
  { exists (Raise e), (fun s => tagged_successors s name). do 2 eexists.
    intros w2 H2. unfold commit_outcome, written_world. cbv zeta.
    rewrite !H2, Hb. reflexivity. }
  destruct (invoke_syscall (bureau (project self)) (reset_scratch (w_state w))
              num call_args (syscall_cc (simos (project self)) (w_state w)))
    as [e|succ] eqn:Hi.
  { exists (Raise e), (fun s => tagged_successors s name). do 2 eexists.
    intros w2 H2. unfold commit_outcome, written_world. cbv zeta.
    rewrite !H2, Hb, Hi. reflexivity. }
  destruct (return_addr_get_value (syscall_cc (simos (project self)) (w_state w))
              (reset_scratch (w_state w))) as [e|target] eqn:Hr.
  { exists (Raise e), (fun s => tagged_successors s name). do 2 eexists.
    intros w2 H2. unfold commit_outcome, written_world. cbv zeta.
    rewrite !H2, Hb, Hi, Hr. reflexivity. }
  destruct (inspect (reset_scratch (w_state w)) "syscall" BP_AFTER name)
    as [e|] eqn:Ha.
  { exists (Raise e),
      (fun s => add_successor (tagged_successors s name) succ target
                              claripy_true "Ijk_Ret").
    do 2 eexists.
    intros w2 H2. unfold commit_outcome, written_world. cbv zeta.
    rewrite !H2, Hb, Hi, Hr, Ha. reflexivity. }
  exists (Normal tt),
    (fun s => w_successors
       (commit_world self {| w_successors := s; w_state := w_state w;
                             w_trace := [] |} num name call_args succ target)).
  do 2 eexists.
  intros w2 H2. unfold commit_outcome, commit_world. cbv zeta.
  rewrite !H2, Hb, Hi, Hr, Ha. reflexivity.
Qed.

(** The method as a function of the state: how it ends, what it does to the
    successors object, the state it leaves and the events it adds. *)
Lemma process_successors_frame (self : Engine) (w : World) :
  exists (r : Result unit) (f : SimSuccessors -> SimSuccessors)
         (st' : SimState) (events : list Event),
    forall w2, w_state w2 = w_state w ->
      process_successors self w2 =
        (r, {| w_successors := f (w_successors w2); w_state := st';
               w_trace := w_trace w2 ++ events |}).
Proof.
  destruct (not_after_syscall (w_state w)) eqn:Hsys.
  { exists Super, (fun s => s), (w_state w), []. intros w2 H2.
    rewrite not_after_syscall_local by (rewrite H2; exact Hsys).
    f_equal. apply same_world, H2. }
  destruct (eval_one (solver (w_state w)) (syscall_num_expr self (w_state w)))
    as [num|] eqn:Hnum.
  2: { eexists. exists (fun s => s), (w_state w), []. intros w2 H2.
       rewrite symbolic_number_raises by (rewrite H2; assumption).
       rewrite H2. f_equal. apply same_world, H2. }
  destruct (_syscall_abi self (w_state w) num) as [abi| |e] eqn:Habi.
  2: { exfalso. exact (_syscall_abi_not_super self _ _ Habi). }
  2: { exists (Raise e), (fun s => s), (w_state w), []. intros w2 H2.
       rewrite (unresolved_abi_raises self w2 num e)
         by (rewrite H2; assumption).
       f_equal. apply same_world, H2. }
  destruct (truthy_str (table_name self abi num)) eqn:Htab.
  2: { eexists. exists (fun s => s), (w_state w), []. intros w2 H2.
       rewrite (unknown_number_raises self w2 num abi)
         by (rewrite ?H2; assumption).
       rewrite H2. f_equal. apply same_world, H2. }
  apply truthy_str_inv in Htab as (name & Htab & Hne).
  assert (Hres : resolves self (w_state w) num abi name)
    by (repeat split; assumption).
  destruct (bool_decide (name ∈ syscall_blacklist abi)) eqn:Hbl.
  { exists Super, (fun s => s), (w_state w), []. intros w2 H2.
    rewrite (resolved_dispatch self w2 num abi name)
      by (rewrite H2; exact Hres).
    rewrite Hbl. f_equal. apply same_world, H2. }
  destruct (prototype_of self (w_state w) abi name) as [proto|] eqn:Hproto.
  2: { eexists. exists (fun s => s), (w_state w), []. intros w2 H2.
       rewrite (resolved_dispatch self w2 num abi name)
         by (rewrite H2; exact Hres).
       rewrite Hbl, H2, Hproto. f_equal. apply same_world, H2. }
  destruct (concretize self (w_state w) proto) as [call_args| |e] eqn:Hargs.
  - destruct (commit_outcome_frame self w num name call_args)
      as (r & f & st' & events & Hf).
    exists r, f, st', events. intros w2 H2.
    rewrite (resolved_dispatch self w2 num abi name)
      by (rewrite H2; exact Hres).
    rewrite Hbl, H2, Hproto, Hargs. apply Hf, H2.
  - exists Super, (fun s => s), (w_state w), []. intros w2 H2.
    rewrite (resolved_dispatch self w2 num abi name)
      by (rewrite H2; exact Hres).
    rewrite Hbl, H2, Hproto, Hargs. f_equal. apply same_world, H2.
  - exists (Raise e), (fun s => s), (w_state w), []. intros w2 H2.
    rewrite (resolved_dispatch self w2 num abi name)
      by (rewrite H2; exact Hres).
    rewrite Hbl, H2, Hproto, Hargs. f_equal. apply same_world, H2.
Qed.

(** X15: the decision reads the state only: two attempts on the same state
    end the same way (commit, delegation, or the same exception), leave the
    same state and add the same events, whatever successors objects and
    traces they started from. *)
Theorem X15_decision_depends_on_state_only (self : Engine) (w1 w2 : World) :
  w_state w1 = w_state w2 ->
  fst (process_successors self w1) = fst (process_successors self w2) /\
  w_state (snd (process_successors self w1)) =
    w_state (snd (process_successors self w2)) /\
  exists events,
    w_trace (snd (process_successors self w1)) = (w_trace w1 ++ events)%list /\
    w_trace (snd (process_successors self w2)) = (w_trace w2 ++ events)%list.
Proof.
  intros Hst.
  destruct (process_successors_frame self w1) as (r & f & st' & events & Hf).
  rewrite (Hf w1 eq_refl), (Hf w2 (eq_sym Hst)). simpl.
  split; [reflexivity|]. split; [reflexivity|].
  exists events. split; reflexivity.
Qed.

(** X16: the method never drops what it was given and adds no successor
    without a call to the Bureau: the successors and the trace it leaves
    extend the ones it received; it calls the Bureau at most once and adds at
    most one successor, and none unless it called the Bureau; when it ends
    normally it has done both exactly once, and when it delegates it has
    added nothing. *)
Theorem X16_no_successor_without_bureau_call (self : Engine) (w : World) :
  exists (added : list Successor) (events : list Event),
    all_successors (w_successors (snd (process_successors self w))) =
      (all_successors (w_successors w) ++ added)%list /\
    w_trace (snd (process_successors self w)) = (w_trace w ++ events)%list /\
    (length added <= remote_invocations events)%nat /\
    (remote_invocations events <= 1)%nat /\
    (fst (process_successors self w) = Normal tt ->
       length added = 1%nat /\ remote_invocations events = 1%nat) /\
    (fst (process_successors self w) = Super -> added = [] /\ events = []).
Proof.
  destruct (process_successors_cases self w)
    as [-> | [[e ->] | (num & abi & name & proto & call_args &
                         _ & _ & _ & _ & ->)]].
  - exists [], []. simpl. rewrite !app_nil_r.
    repeat split; try reflexivity; try lia; discriminate.
  - exists [], []. simpl. rewrite !app_nil_r.
    repeat split; try reflexivity; try lia; discriminate.
  - destruct (commit_outcome self w num name call_args) as [[[]| |e] w'] eqn:Hout.
    + apply commit_outcome_normal in Hout
        as (succ & target & _ & _ & _ & _ & ->).
      do 2 eexists. simpl.
      split; [reflexivity|]. split; [reflexivity|]. simpl.
      repeat split; try lia; discriminate.
    + exfalso. revert Hout. unfold commit_outcome.
      destruct (inspect _ _ BP_BEFORE _); [discriminate|].
      destruct (invoke_syscall _ _ _ _ _); [discriminate|].
      destruct (return_addr_get_value _ _); [discriminate|].
      destruct (inspect _ _ BP_AFTER _); discriminate.
    + apply commit_outcome_raises in Hout
        as (_ & _ & _ & _ & added & events & Ha & Ht & Hle & Hone).
      exists added, events. simpl.
      split; [exact Ha|]. split; [exact Ht|].
      split; [exact Hle|]. split; [exact Hone|].
      split; discriminate.
Qed.

(** ** The further properties on concrete configurations *)

Lemma X1_boring_jump_witness :
  process_successors open_engine (world_of boring_state) =
    (Super, world_of boring_state) /\
  process_successors open_engine (world_of fresh_state) =
    (Super, world_of fresh_state).
Proof.
  split.
  - apply (X1_other_jumps_are_delegated open_engine (world_of boring_state)).
    intros h p jk Hh Hp Hj. simpl in Hh. inversion Hh; subst h.
    simpl in Hp. inversion Hp; subst p. simpl in Hj. inversion Hj; subst jk.
    reflexivity.
  - apply (X1_other_jumps_are_delegated open_engine (world_of fresh_state)).
    intros h p jk Hh. discriminate Hh.
Defined.

Lemma X2_syscall_jump_witness :
  exists e, process_successors symbolic_number_engine demo_world =
              (Raise e, demo_world).
Proof.
  apply (X2_syscall_jumps_are_handled symbolic_number_engine demo_world
           (mkHistory (Some (mkHistory None (Some "Ijk_Sys_syscall") 7)) None 3)
           (mkHistory None (Some "Ijk_Sys_syscall") 7) "_syscall");
    reflexivity.
Defined.

Lemma X3_fstat_without_prototype_witness :
  process_successors (demo_engine (BVV 5) []) demo_world =
    (Raise (AngrUnsupportedSyscallError
       (Format "Syscall %d %s for architecture %s is not found in the syscall prototypes"
               [FmtInt 5; FmtStr "fstat"; FmtStr "amd64"])), demo_world) /\
  process_successors (demo_engine (BVV 5) [])
      (demo_world_with {[ BYPASS_UNSUPPORTED_SYSCALL ]} true) =
    (Raise (NotImplementedError (Literal "what to do...")),
     demo_world_with {[ BYPASS_UNSUPPORTED_SYSCALL ]} true).
Proof.
  split.
  - refine (proj1 (X3_missing_prototype_raises
                     (demo_engine (BVV 5) []) demo_world 5 "amd64" "fstat" _ _ _) _).
    + by_evaluation.
    + not_in_bypass_set.
    + reflexivity.
    + not_in_bypass_set.
  - refine (proj2 (X3_missing_prototype_raises
                     (demo_engine (BVV 5) [])
                     (demo_world_with {[ BYPASS_UNSUPPORTED_SYSCALL ]} true)
                     5 "amd64" "fstat" _ _ _) _).
    + by_evaluation.
    + not_in_bypass_set.
    + reflexivity.
    + in_bypass_set.
Defined.

Lemma X4_tolerated_unknown_witness :
  process_successors unknown_number_engine
      (demo_world_with {[ BYPASS_UNSUPPORTED_SYSCALL ]} true) =
    (Raise (NotImplementedError (Literal "what to do...")),
     demo_world_with {[ BYPASS_UNSUPPORTED_SYSCALL ]} true) /\
  process_successors (sparse_engine (BVV 7) [])
      (demo_world_with {[ BYPASS_UNSUPPORTED_SYSCALL ]} true) =
    (Raise (NotImplementedError (Literal "what to do...")),
     demo_world_with {[ BYPASS_UNSUPPORTED_SYSCALL ]} true).
Proof.
  split.
  - apply (X4_tolerated_unknown_number_is_not_implemented
             unknown_number_engine
             (demo_world_with {[ BYPASS_UNSUPPORTED_SYSCALL ]} true) 9 "amd64").
    + reflexivity.
    + reflexivity.
    + reflexivity.
    + left. vm_compute. reflexivity.
    + in_bypass_set.
  - apply (X4_tolerated_unknown_number_is_not_implemented
             (sparse_engine (BVV 7) [])
             (demo_world_with {[ BYPASS_UNSUPPORTED_SYSCALL ]} true) 7 "amd64").
    + reflexivity.
    + reflexivity.
    + reflexivity.
    + right. vm_compute. reflexivity.
    + in_bypass_set.
Defined.

Lemma X5_blank_name_witness :
  process_successors (sparse_engine (BVV 7) []) demo_world =
    (Raise (UnknownSyscallNumber 7 demo_state), demo_world).
Proof.
  apply (X5_blank_name_is_unknown (sparse_engine (BVV 7) []) demo_world 7 "amd64").
  - reflexivity.
  - reflexivity.
  - reflexivity.
  - vm_compute. reflexivity.
  - not_in_bypass_set.
Defined.

Lemma X6_resolved_abi_witness :
  (exists t lo hi,
     In ("second", (t, lo, hi)) (syscall_abis (simos (project two_abi_engine))) /\
     lo <= 300 < hi) /\
  (forall a t lo hi,
     In (a, (t, lo, hi)) (syscall_abis (simos (project two_abi_engine))) ->
     ~ (lo <= 600 < hi)) /\
  _syscall_abi bare_engine demo_state 0 = Raise (UnresolvedAbi 0 demo_state).
Proof.
  split; [|split].
  - destruct (proj1 (X6_resolved_abi_is_declared two_abi_engine demo_state 300)
                "second" eq_refl) as [H | [[_ [r H]] | [_ H]]].
    + discriminate H.
    + discriminate H.
    + exact H.
  - apply (proj1 (proj2 (X6_resolved_abi_is_declared two_abi_engine demo_state 600))
             (UnresolvedAbi 600 demo_state) eq_refl).
  - apply (proj2 (proj2 (X6_resolved_abi_is_declared bare_engine demo_state 0)));
      reflexivity.
Defined.

Lemma X7_number_out_of_range_witness :
  process_successors (ranged_engine (BVV 600)) demo_world =
    (Raise (UnresolvedAbi 600 demo_state), demo_world).
Proof.
  apply (X7_unresolved_abi_is_fatal (ranged_engine (BVV 600)) demo_world 600).
  - reflexivity.
  - reflexivity.
  - reflexivity.
  - simpl. lia.
  - intros a t lo hi [H|[H|[]]]; inversion H; subst; lia.
Defined.

Lemma X9_other_artifacts_kept_witness :
  artifacts (w_successors
     (open_commit used_world))
    !! "irsb_size" = Some (ArtStr "12").
Proof.
  refine (eq_trans (proj1 (proj2 (proj2 (proj2
    (X9_commit_writes_only_its_artifacts open_engine used_world
       (open_commit used_world) _))))
    "irsb_size" _ _ _ _) _).
  - vm_compute. reflexivity.
  - discriminate.
  - discriminate.
  - discriminate.
  - discriminate.
  - vm_compute. reflexivity.
Defined.

Lemma X10_reset_only_witness :
  sim_procedure (scratch (reset_scratch demo_state)) = None /\
  option_map recent_block_count (history (reset_scratch demo_state)) = Some 1 /\
  solver (reset_scratch demo_state) = solver (w_state demo_world) /\
  options (reset_scratch demo_state) = options (w_state demo_world) /\
  arch (reset_scratch demo_state) = arch (w_state demo_world) /\
  inspect (reset_scratch demo_state) = inspect (w_state demo_world) /\
  option_map parent (history (reset_scratch demo_state)) =
    option_map parent (history (w_state demo_world)) /\
  option_map jumpkind (history (reset_scratch demo_state)) =
    option_map jumpkind (history (w_state demo_world)).
Proof.
  apply (X10_reset_touches_only_the_bookkeeping
           unreachable_engine demo_world "open" (reset_scratch demo_state)
           [InvokeSyscall (reset_scratch demo_state) 2 [4096; 0; 420]
              (syscall_cc (simos (project unreachable_engine)) demo_state)]).
  vm_compute. reflexivity.
Defined.

Lemma X11_bureau_arguments_witness :
  exists num abi name proto call_args before after,
    prototype_of open_engine (w_state used_world) abi name = Some proto /\
    w_trace (open_commit used_world) =
      (w_trace used_world ++
        [ before;
          InvokeSyscall
            (w_state (open_commit used_world))
            num call_args
            (syscall_cc (simos (project open_engine)) (w_state used_world));
          after ])%list /\
    eval_one (solver (w_state used_world))
             (syscall_num_expr open_engine (w_state used_world)) = Some num /\
    table_name open_engine abi num = Some name /\
    length call_args = length (args proto) /\
    forall i : nat, (i < length (args proto))%nat ->
      symbolic (solver (w_state used_world))
               (arg_expr open_engine (w_state used_world) i) = false /\
      eval_one (solver (w_state used_world))
               (arg_expr open_engine (w_state used_world) i) = call_args !! i.
Proof.
  apply (X11_bureau_gets_the_solver_values open_engine used_world
           (open_commit used_world)).
  vm_compute. reflexivity.
Defined.


Lemma X13_later_arguments_ignored_witness :
  process_successors
      (demo_engine (BVV 2) [BVV 4096; BVS "flags"; BVS "mode"]) demo_world =
    (Super, demo_world).
Proof.
  apply (X13_first_symbolic_argument_decides
           (demo_engine (BVV 2) [BVV 4096; BVS "flags"; BVS "mode"])
           demo_world 2 "amd64" "open" open_prototype 1).
  - by_evaluation.
  - reflexivity.
  - simpl. lia.
  - reflexivity.
  - intros j Hj. destruct j as [|j]; [|lia].
    split; [reflexivity | exists 4096; reflexivity].
Defined.

Lemma X14_solver_error_witness :
  process_successors open_symbolic_engine (world_of literal_state) =
    (Raise SimSolverError, world_of literal_state).
Proof.
  apply (X14_unevaluable_argument_raises
           open_symbolic_engine (world_of literal_state) 2 "amd64" "open"
           open_prototype 1).
  - by_evaluation.
  - not_in_bypass_set.
  - reflexivity.
  - simpl. lia.
  - reflexivity.
  - reflexivity.
  - intros j Hj. destruct j as [|j]; [|lia].
    split; [reflexivity | exists 4096; reflexivity].
Defined.

Lemma X15_same_state_witness :
  fst (process_successors open_engine demo_world) =
    fst (process_successors open_engine used_world) /\
  w_state (snd (process_successors open_engine demo_world)) =
    w_state (snd (process_successors open_engine used_world)) /\
  exists events,
    w_trace (snd (process_successors open_engine demo_world)) =
      (w_trace demo_world ++ events)%list /\
    w_trace (snd (process_successors open_engine used_world)) =
      (w_trace used_world ++ events)%list.
Proof.
  apply (X15_decision_depends_on_state_only open_engine demo_world used_world).
  reflexivity.
Defined.
